(** * Shallow embedding of the Dutchie GraphQL crawler (src/scraping/dutchie_graphql.py)

    Python values produced by [json.loads] are modelled by the inductive
    [json]; a Python [dict] is an association list in insertion order
    (the keys of a parsed JSON object are distinct), Python [None] is [JNull].
    JSON numbers are exact rationals ([Q]); the int/float distinction of
    Python is not kept.  A Python [str] is a Rocq [string] holding one
    character per code point, so text is taken over U+0000-U+00FF (Latin-1);
    [str.lower], [str.upper] and [str.strip] are modelled exactly on it.  A Python exception escaping a function is [None]
    in the [option] result of its model. *)

From Stdlib Require Import List Bool Arith Lia String Ascii ZArith QArith NArith.
Import ListNotations.
Set Warnings "-register-all".
Open Scope string_scope.
Open Scope nat_scope.

Inductive json : Type :=
| JNull
| JBool (b : bool)
| JNum (q : Q)
| JStr (s : string)
| JArr (l : list json)
| JObj (kvs : list (string * json)).

(** ** Python helpers *)

(** [d.get(k)] on a dict: the value, or [None]. *)
Fixpoint dget (kvs : list (string * json)) (k : string) : json :=
  match kvs with
  | [] => JNull
  | (k', v) :: r => if String.eqb k' k then v else dget r k
  end.

(** [obj.get(k)] where [obj] is a dict. *)
Definition get (v : json) (k : string) : json :=
  match v with
  | JObj kvs => dget kvs k
  | _ => JNull
  end.

(** Python truthiness. *)
Definition truthy (v : json) : bool :=
  match v with
  | JNull => false
  | JBool b => b
  | JNum q => negb (Qeq_bool q 0%Q)
  | JStr s => negb (String.eqb s EmptyString)
  | JArr l => match l with [] => false | _ => true end
  | JObj kvs => match kvs with [] => false | _ => true end
  end.

(** [a or b] *)
Definition py_or (a b : json) : json := if truthy a then a else b.

Definition is_dict (v : json) : bool :=
  match v with JObj _ => true | _ => false end.

Definition is_list (v : json) : bool :=
  match v with JArr _ => true | _ => false end.

(** [str.lower()] on one character: [A-Z] and the Latin-1 capitals
    U+00C0-U+00D6 and U+00D8-U+00DE move down by 32; every other code
    point below 256 is its own lower case. *)
Definition char_lower (c : ascii) : ascii :=
  let n := nat_of_ascii c in
  if ((65 <=? n) && (n <=? 90)) || ((192 <=? n) && (n <=? 222) && negb (n =? 215))
  then ascii_of_nat (n + 32) else c.

(** [str.upper()] on one character other than U+00DF: [a-z] and
    U+00E0-U+00FE (U+00F7 apart) move up by 32.  U+00B5 and U+00FF
    upper-case to code points above U+00FF that no other character below
    256 upper-cases to; they are kept, which keeps which strings have equal
    upper cases. *)
Definition char_upper (c : ascii) : ascii :=
  let n := nat_of_ascii c in
  if ((97 <=? n) && (n <=? 122)) || ((224 <=? n) && (n <=? 254) && negb (n =? 247))
  then ascii_of_nat (n - 32) else c.

Fixpoint str_map (f : ascii -> ascii) (s : string) : string :=
  match s with
  | EmptyString => EmptyString
  | String c r => String (f c) (str_map f r)
  end.

Definition lower (s : string) : string := str_map char_lower s.

(** [str.upper()]: U+00DF (sharp s) becomes ["SS"]. *)
Fixpoint upper (s : string) : string :=
  match s with
  | EmptyString => EmptyString
  | String c r =>
      if nat_of_ascii c =? 223 then String "S" (String "S" (upper r))
      else String (char_upper c) (upper r)
  end.

(** Python's [str.isspace] below 256 (also what the regex [\s] matches):
    U+0009-U+000D, U+001C-U+0020, U+0085 and U+00A0. *)
Definition is_space (c : ascii) : bool :=
  let n := nat_of_ascii c in
  ((9 <=? n) && (n <=? 13)) || ((28 <=? n) && (n <=? 32)) || (n =? 133) || (n =? 160).

Fixpoint lstrip_l (l : list ascii) : list ascii :=
  match l with
  | c :: r => if is_space c then lstrip_l r else l
  | [] => []
  end.

(** [str.strip()] *)
Definition strip (s : string) : string :=
  string_of_list_ascii
    (rev (lstrip_l (rev (lstrip_l (list_ascii_of_string s))))).

(** ** Stock policy: [_STOCK_KEYS] and [_is_in_stock] *)

Definition _STOCK_KEYS : list string :=
  ["instock"; "isavailable"; "available"; "stockstatus"; "inventorystatus";
   "quantityavailable"; "quantity"].

Definition is_stock_key (k : string) : bool :=
  existsb (String.eqb (lower k)) _STOCK_KEYS.

(** Python [v > 0] for a JSON number. *)
Definition num_pos (q : Q) : bool := negb (Qle_bool q 0%Q).

(** The product-level string list (lines 115-122). *)
Definition product_out_strings : list string :=
  ["false"; "0"; "out_of_stock"; "out of stock"; "unavailable"; "no"].

(** The variant-level string list (lines 139-144 and 239-244). *)
Definition variant_out_strings : list string :=
  ["false"; "0"; "out_of_stock"; "unavailable"].

(** Lines 109-124: the first stock-keyed entry with a bool, str or number
    value decides; [Some b] is the early [return b]. *)
Fixpoint product_level_stock (kvs : list (string * json)) : option bool :=
  match kvs with
  | [] => None
  | (k, v) :: r =>
      if negb (is_stock_key k) then product_level_stock r
      else match v with
           | JBool b => Some b
           | JStr s => Some (negb (existsb (String.eqb (lower s)) product_out_strings))
           | JNum q => Some (num_pos q)
           | _ => product_level_stock r
           end
  end.

(** Lines 132-148: the inner loop over one variant's items; [Some true]
    is an early [return True]. *)
Fixpoint variant_items_any_stock (kvs : list (string * json)) : option bool :=
  match kvs with
  | [] => None
  | (k, v) :: r =>
      if negb (is_stock_key k) then variant_items_any_stock r
      else match v with
           | JBool true => Some true
           | JStr s =>
               if negb (existsb (String.eqb (lower s)) variant_out_strings)
               then Some true else variant_items_any_stock r
           | JNum q => if num_pos q then Some true else variant_items_any_stock r
           | _ => variant_items_any_stock r
           end
  end.

Fixpoint variants_any_stock (vs : list json) : option bool :=
  match vs with
  | [] => None
  | JObj kvs :: r =>
      match variant_items_any_stock kvs with
      | Some b => Some b
      | None => variants_any_stock r
      end
  | _ :: r => variants_any_stock r
  end.

(** [product.get("variants") or product.get("options") or []] *)
Definition variants_of (p : json) : json :=
  py_or (get p "variants") (py_or (get p "options") (JArr [])).

(** [_is_in_stock(product)] for a dict [product]. *)
Definition _is_in_stock (kvs : list (string * json)) : bool :=
  match product_level_stock kvs with
  | Some b => b
  | None =>
      match variants_of (JObj kvs) with
      | JArr ((_ :: _) as vs) =>
          match variants_any_stock vs with
          | Some b => b
          | None => true
          end
      | _ => true
      end
  end.

(** ** [str(x)] on JSON values *)

Fixpoint digits_N (fuel : nat) (n : N) (acc : string) : string :=
  match fuel with
  | O => acc
  | S f =>
      let acc' := String (ascii_of_N (48 + N.modulo n 10)) acc in
      if N.eqb (N.div n 10) 0 then acc' else digits_N f (N.div n 10) acc'
  end.

Definition N_to_string (n : N) : string := digits_N (S (N.size_nat n)) n EmptyString.

Definition Z_to_string (z : Z) : string :=
  if Z.ltb z 0 then "-" ++ N_to_string (Z.to_N (- z)) else N_to_string (Z.to_N z).

Definition nat_to_string (n : nat) : string := N_to_string (N.of_nat n).

(** Fractional digits of [r / d], at most [fuel] of them, stopping at a
    zero remainder. *)
Fixpoint frac_digits (fuel : nat) (r d : Z) : string :=
  match fuel with
  | O => EmptyString
  | S f =>
      if Z.eqb r 0 then EmptyString
      else String (ascii_of_N (48 + Z.to_N (Z.div (r * 10) d)))
                  (frac_digits f (Z.modulo (r * 10) d) d)
  end.

(** Decimal rendering of a JSON number: an integral value as an int, any
    other value as a decimal with at most 17 fractional digits. *)
Definition q_to_string (q : Q) : string :=
  let n := Qnum q in
  let d := Zpos (Qden q) in
  if Z.eqb d 1 then Z_to_string n
  else (if Z.ltb n 0 then "-" else EmptyString)
         ++ Z_to_string (Z.div (Z.abs n) d) ++ "."
         ++ frac_digits 17 (Z.modulo (Z.abs n) d) d.

(** [repr(x)] (string escapes are not modelled). *)
Fixpoint py_repr (v : json) : string :=
  match v with
  | JNull => "None"
  | JBool true => "True"
  | JBool false => "False"
  | JNum q => q_to_string q
  | JStr s => "'" ++ s ++ "'"
  | JArr l =>
      "[" ++ (fix go (l : list json) : string :=
                match l with
                | [] => EmptyString
                | [x] => py_repr x
                | x :: r => py_repr x ++ ", " ++ go r
                end) l ++ "]"
  | JObj kvs =>
      "{" ++ (fix go (kvs : list (string * json)) : string :=
                match kvs with
                | [] => EmptyString
                | [(k, x)] => "'" ++ k ++ "': " ++ py_repr x
                | (k, x) :: r => "'" ++ k ++ "': " ++ py_repr x ++ ", " ++ go r
                end) kvs ++ "}"
  end.

(** [str(x)] *)
Definition py_str (v : json) : string :=
  match v with
  | JStr s => s
  | _ => py_repr v
  end.

(** ** [_extract_cannabinoid] (lines 156-180) *)

(** The name an entry [c] of the cannabinoids array carries (lines 165-171). *)
Definition cannabinoid_entry_name (c : json) : json :=
  let cb_obj := py_or (get c "cannabinoid") (JObj []) in
  match cb_obj with
  | JObj _ => py_or (get cb_obj "name") (JStr EmptyString)
  | JStr s => JStr s
  | _ => py_or (get c "cannabinoidType") (py_or (get c "name") (JStr EmptyString))
  end.

Fixpoint scan_cannabinoids (cs : list json) (name : string) : option string :=
  match cs with
  | [] => None
  | c :: r =>
      if negb (is_dict c) then scan_cannabinoids r name
      else
        let matches :=
          match cannabinoid_entry_name c with
          | JStr cname => String.eqb (upper cname) (upper name)
          | _ => false
          end in
        if matches then
          let val := py_or (get c "value")
                       (py_or (get c "formattedValue") (get c "percentageValue")) in
          match val with
          | JNull => scan_cannabinoids r name
          | _ => Some (py_str val)
          end
        else scan_cannabinoids r name
  end.

(** [for c in cannabinoids]: a list iterates its items; a string its
    characters and a dict its keys (neither yields a dict); a truthy number
    or [True] is not iterable and raises [TypeError] (outer [None]). *)
Definition _extract_cannabinoid (product : json) (name : string) : option (option string) :=
  match py_or (get product "cannabinoids") (JArr []) with
  | JArr cs => Some (scan_cannabinoids cs name)
  | JStr _ | JObj _ | JNull => Some None
  | JNum _ | JBool _ => None
  end.

(** ** Rows: [_build_rows_from_product] (lines 183-304) *)

(** A result row; [P] is the type of the [Price] column (the raw JSON value
    while rows are built, a number or NaN once the table is coerced). *)
Record row_of (P : Type) : Type := mkRow {
  Product : string;
  Menu_Type : option string;
  Category : json;
  Brand : json;
  THC : option string;
  CBD : option string;
  Price : P;
  Size : option string;
  SKU : option string;
  Source : string;
  Source_URL : string
}.

Arguments mkRow {P}.
Arguments Product {P}.
Arguments Menu_Type {P}.
Arguments Category {P}.
Arguments Brand {P}.
Arguments THC {P}.
Arguments CBD {P}.
Arguments Price {P}.
Arguments Size {P}.
Arguments SKU {P}.
Arguments Source {P}.
Arguments Source_URL {P}.

Definition row : Type := row_of json.

Definition product_name (p : json) : json :=
  py_or (get p "name") (py_or (get p "title") (get p "displayName")).

Definition product_category (p : json) : json :=
  let c := py_or (get p "category")
             (py_or (get p "type") (py_or (get p "productType") (get p "kind"))) in
  match c with
  | JObj _ => py_or (get c "name") (get c "title")
  | _ => c
  end.

Definition product_brand (p : json) : json :=
  let b := py_or (get p "brand") (get p "brandInfo") in
  match b with
  | JObj _ => py_or (get b "name") (get b "title")
  | JStr s => JStr s
  | _ => JNull
  end.

Definition product_id_of (p : json) : json :=
  py_or (get p "id") (py_or (get p "productId") (get p "slug")).

(** Lines 232-247: the first stock-keyed item decides, then [break]. *)
Fixpoint variant_in_stock (kvs : list (string * json)) : bool :=
  match kvs with
  | [] => true
  | (k, v) :: r =>
      if negb (is_stock_key k) then variant_in_stock r
      else match v with
           | JBool b => b
           | JStr s => negb (existsb (String.eqb (lower s)) variant_out_strings)
           | JNum q => num_pos q
           | _ => true
           end
  end.

Definition variant_price (v : json) : json :=
  py_or (get v "specialPrice")
    (py_or (get v "price") (py_or (get v "amount") (get v "listPrice"))).

Definition variant_size (v : json) : option string :=
  match py_or (get v "size") (py_or (get v "weight") (get v "option")) with
  | JNull => None
  | s => Some (py_str s)
  end.

Definition variant_sku (v product_id : json) : option string :=
  let variant_id := py_or (get v "id") (get v "variantId") in
  if truthy variant_id then Some (py_str variant_id)
  else if truthy product_id then Some (py_str product_id) else None.

Definition source_label : string := "Dutchie GraphQL".

Fixpoint variant_rows (name : string) (menu_type : option string)
    (category brand : json) (thc cbd : option string) (product_id : json)
    (source_url : string) (vs : list json) : list row :=
  match vs with
  | [] => []
  | v :: r =>
      let rest := variant_rows name menu_type category brand thc cbd product_id source_url r in
      match v with
      | JObj kvs =>
          if variant_in_stock kvs then
            mkRow name menu_type category brand thc cbd (variant_price v)
              (variant_size v) (variant_sku v product_id) source_label source_url
            :: rest
          else rest
      | _ => rest
      end
  end.

Definition product_level_price (p : json) : json :=
  let price := py_or (get p "price") (py_or (get p "basePrice") (get p "amount")) in
  match price with
  | JObj _ => py_or (get price "amount") (get price "value")
  | _ => price
  end.

Definition _build_rows_from_product (product : json) (source_url : string)
    (menu_type : option string) : option (list row) :=
  match product_name product with
  | JStr raw =>
      if String.eqb (strip raw) EmptyString then Some []
      else
        let name := strip raw in
        let category := product_category product in
        let brand := product_brand product in
        match _extract_cannabinoid product "THC", _extract_cannabinoid product "CBD" with
        | Some thc, Some cbd =>
            let product_id := product_id_of product in
            match variants_of product with
            | JArr ((_ :: _) as vs) =>
                Some (variant_rows name menu_type category brand thc cbd product_id
                        source_url vs)
            | _ =>
                Some [mkRow name menu_type category brand thc cbd
                        (product_level_price product) None
                        (if truthy product_id then Some (py_str product_id) else None)
                        source_label source_url]
            end
        | _, _ => None
        end
  | _ => Some []
  end.

(** ** PayloadExtractor: [_extract_products_from_payload] and [_find_product_list] *)

Definition _PRODUCT_ARRAY_PATHS : list (list string) :=
  [["data"; "filteredProducts"; "products"];
   ["data"; "products"; "products"];
   ["data"; "menuProducts"];
   ["data"; "products"]].

(** Lines 324-328: follow [path]; on a non-dict the loop [break]s and
    [obj] keeps its current value. *)
Fixpoint walk_path (obj : json) (path : list string) : json :=
  match path with
  | [] => obj
  | key :: r =>
      match obj with
      | JObj _ => walk_path (get obj key) r
      | _ => obj
      end
  end.

Fixpoint known_paths_hit (body : json) (paths : list (list string)) : option (list json) :=
  match paths with
  | [] => None
  | path :: r =>
      match walk_path body path with
      | JArr l => Some l
      | _ => known_paths_hit body r
      end
  end.

Definition has_key (kvs : list (string * json)) (k : string) : bool :=
  existsb (fun kv => String.eqb (fst kv) k) kvs.

(** [isinstance(item, dict) and ("name" in item or "title" in item)] *)
Definition named_item (item : json) : bool :=
  match item with
  | JObj kvs => has_key kvs "name" || has_key kvs "title"
  | _ => false
  end.

Definition named_count (l : list json) : nat := List.length (filter named_item l).

(** Line 355: the acceptance test of a list. *)
Definition qualifies (l : list json) : bool :=
  (Nat.min 2 (List.length l) <=? named_count l) && (0 <? named_count l).

Definition max_depth : nat := 6.

(** [if len(candidate) > len(best): best = candidate] *)
Definition keep_longer (best candidate : list json) : list json :=
  if List.length best <? List.length candidate then candidate else best.

Fixpoint _find_product_list (depth : nat) (obj : json) {struct obj} : list json :=
  if max_depth <? depth then []
  else
    match obj with
    | JObj kvs =>
        (fix go (kvs : list (string * json)) (best : list json) : list json :=
           match kvs with
           | [] => best
           | (_, v) :: r => go r (keep_longer best (_find_product_list (S depth) v))
           end) kvs []
    | JArr l =>
        if qualifies l then l
        else
          (fix go (l : list json) (best : list json) : list json :=
             match l with
             | [] => best
             | item :: r => go r (keep_longer best (_find_product_list (S depth) item))
             end) l []
    | _ => []
    end.

Definition _extract_products_from_payload (payload : json) : list json :=
  let body := py_or (get payload "json") (get payload "data") in
  if negb (truthy body) || negb (is_dict body) then []
  else
    match known_paths_hit body _PRODUCT_ARRAY_PATHS with
    | Some l => l
    | None => _find_product_list 0 body
    end.

(** ** ResponseCapture: [_on_response] (lines 519-562) *)

(** A network response as the listener sees it; [resp_body] is the result
    of [json.loads(response.text())], [None] when that raises. *)
Record response : Type := mkResponse {
  resp_url : string;
  resp_status : Z;
  resp_ctype : string;
  resp_text : string;
  resp_body : option json
}.

Definition contains (s sub : string) : bool :=
  match String.index 0 sub s with Some _ => true | None => false end.

(** The captured entry of lines 534-541. *)
Definition capture_entry (url : string) (status : Z) (ctype text : string)
    (body : json) : json :=
  JObj [("url", JStr url); ("status", JNum (inject_Z status));
        ("content_type", JStr ctype); ("json", body); ("data", body);
        ("text_snippet", JStr (substring 0 200 text))].

Definition _on_response (r : response) : option json :=
  let url_lower := lower (resp_url r) in
  if negb (contains url_lower "graphql") && negb (contains url_lower "operationname")
  then None
  else
    match resp_body r with
    | None => None
    | Some body =>
        if truthy body
        then Some (capture_entry (resp_url r) (resp_status r) (lower (resp_ctype r))
                     (resp_text r) body)
        else None
    end.

Definition capture_all (rs : list response) : list json :=
  flat_map (fun r => match _on_response r with Some e => [e] | None => [] end) rs.

(** ** RowDeduplicator keys and page signatures *)

(** [(row.get("Product"), row.get("Price"), row.get("Size"))] *)
Definition key : Type := (string * json * option string)%type.

Definition row_key (r : row) : key := (Product r, Price r, Size r).

(** A tuple is hashable iff its components are: a list or dict Price is
    not, and [hash] raises [TypeError]. *)
Definition key_hashable (k : key) : bool :=
  match k with
  | (_, JArr _, _) | (_, JObj _, _) => false
  | _ => true
  end.

Definition bool_to_Q (b : bool) : Q := if b then 1%Q else 0%Q.

(** Python [==] on hashable JSON scalars ([True == 1], [1 == 1.0]). *)
Definition scalar_eqb (a b : json) : bool :=
  match a, b with
  | JNull, JNull => true
  | JBool x, JBool y => Bool.eqb x y
  | JBool x, JNum q => Qeq_bool (bool_to_Q x) q
  | JNum q, JBool y => Qeq_bool q (bool_to_Q y)
  | JNum p, JNum q => Qeq_bool p q
  | JStr x, JStr y => String.eqb x y
  | _, _ => false
  end.

Definition opt_str_eqb (a b : option string) : bool :=
  match a, b with
  | None, None => true
  | Some x, Some y => String.eqb x y
  | _, _ => false
  end.

Definition key_eqb (a b : key) : bool :=
  match a, b with
  | (n1, p1, s1), (n2, p2, s2) => String.eqb n1 n2 && scalar_eqb p1 p2 && opt_str_eqb s1 s2
  end.

(** [k in seen_keys] *)
Definition key_mem (k : key) (seen : list key) : bool := existsb (key_eqb k) seen.

(** A [frozenset] of keys, as the list of its elements. *)
Definition signature : Type := list key.

(** [frozenset(...)] over a page's rows; raises on an unhashable key. *)
Definition page_signature (rows : list row) : option signature :=
  if forallb (fun r => key_hashable (row_key r)) rows then Some (map row_key rows) else None.

(** [frozenset] equality. *)
Definition sig_eqb (s1 s2 : signature) : bool :=
  forallb (fun k => key_mem k s2) s1 && forallb (fun k => key_mem k s1) s2.

(** [sig in prev_signatures] *)
Definition sig_in (s : signature) (prev : list signature) : bool := existsb (sig_eqb s) prev.

(** ** Crawl session state and its state/exception monad *)

(** The objects [crawl_dutchie] mutates: the capture buffer, the dedup
    key set, the accumulated rows, [debug_info["per_page_counts"]], and the
    log of category-page navigations [(category, page)]. *)
Record St : Type := mkSt {
  captured : list json;
  seen_keys : list key;
  all_rows : list row;
  per_page_counts : list (string * nat);
  nav_log : list (string * nat)
}.

Definition empty_st : St := mkSt [] [] [] [] [].

(** A computation reads and updates the session state and may raise; an
    exception leaves the mutations made before it in place. *)
Definition M (A : Type) : Type := St -> option A * St.

Definition ret {A} (a : A) : M A := fun st => (Some a, st).

Definition bind {A B} (m : M A) (k : A -> M B) : M B :=
  fun st => match m st with
            | (Some a, st') => k a st'
            | (None, st') => (None, st')
            end.

Definition lift {A} (o : option A) : M A := fun st => (o, st).

Notation "x <- m ;; k" := (bind m (fun x => k)) (at level 61, m at next level, right associativity).

(** Python dict item assignment [d[k] = v]. *)
Fixpoint assoc_set (k : string) (v : nat) (d : list (string * nat)) : list (string * nat) :=
  match d with
  | [] => [(k, v)]
  | (k', v') :: r => if String.eqb k' k then (k, v) :: r else (k', v') :: assoc_set k v r
  end.

Fixpoint assoc_get (k : string) (d : list (string * nat)) : option nat :=
  match d with
  | [] => None
  | (k', v) :: r => if String.eqb k' k then Some v else assoc_get k r
  end.

Definition set_count (k : string) (v : nat) : M unit :=
  fun st => (Some tt, mkSt (captured st) (seen_keys st) (all_rows st)
                          (assoc_set k v (per_page_counts st)) (nav_log st)).

Definition add_captures (es : list json) : M unit :=
  fun st => (Some tt, mkSt (captured st ++ es) (seen_keys st) (all_rows st)
                          (per_page_counts st) (nav_log st)).

Definition log_nav (cat : string) (pg : nat) : M unit :=
  fun st => (Some tt, mkSt (captured st) (seen_keys st) (all_rows st)
                          (per_page_counts st) (nav_log st ++ [(cat, pg)])).

Definition get_st : M St := fun st => (Some st, st).

(** [_dedup_and_add] (lines 506-514). *)
Fixpoint dedup_loop (rows : list row) (added : nat) : M nat :=
  match rows with
  | [] => ret added
  | r :: rs =>
      fun st =>
        let k := row_key r in
        if negb (key_hashable k) then (None, st)
        else if key_mem k (seen_keys st) then dedup_loop rs added st
        else dedup_loop rs (S added)
               (mkSt (captured st) (k :: seen_keys st) (all_rows st ++ [r])
                     (per_page_counts st) (nav_log st))
  end.

Definition _dedup_and_add (rows : list row) : M nat := dedup_loop rows 0.

(** ** Page processing (lines 643-653 and 612-621) *)

Section Crawl.

(** The start URL and the resolved menu type. *)
Variable url : string.
Variable menu_type : option string.

(** [for prod in raw_products: if not _is_in_stock(prod): continue;
    rows.extend(_build_rows_from_product(prod, url, menu_type))];
    [_is_in_stock] raises on a non-dict ([product.items()]). *)
Fixpoint products_rows (prods : list json) : option (list row) :=
  match prods with
  | [] => Some []
  | p :: r =>
      match p with
      | JObj kvs =>
          if _is_in_stock kvs then
            match _build_rows_from_product p url menu_type, products_rows r with
            | Some rs, Some rest => Some (rs ++ rest)%list
            | _, _ => None
            end
          else products_rows r
      | _ => None
      end
  end.

(** The rows of a batch of captured payloads. *)
Fixpoint payloads_rows (caps : list json) : option (list row) :=
  match caps with
  | [] => Some []
  | payload :: r =>
      match products_rows (_extract_products_from_payload payload), payloads_rows r with
      | Some rs, Some rest => Some (rs ++ rest)%list
      | _, _ => None
      end
  end.

(** ** PaginationCrawler: the per-category loop (lines 624-680) *)

(** The responses the browser receives while navigating to the page of
    [(category, page)], i.e. to [_page_url(url, category, page)] and waiting
    for it to settle; [None] when [page.goto] raises (navigation timeout). *)
Variable net : string -> nat -> option (list response).

Definition page_key (cat : string) (pg : nat) : string := cat ++ "_page" ++ nat_to_string pg.

(** One iteration of [for pg in range(1, max_pages + 1)] per unit of [fuel];
    [prev] is [prev_signatures]. *)
Fixpoint cat_loop (cat : string) (fuel pg : nat) (prev : list signature) : M unit :=
  match fuel with
  | O => ret tt
  | S f =>
      st0 <- get_st ;;
      let cap_before := List.length (captured st0) in
      _ <- log_nav cat pg ;;
      resps <- lift (net cat pg) ;;
      _ <- add_captures (capture_all resps) ;;
      st1 <- get_st ;;
      let new_captures := skipn cap_before (captured st1) in
      page_products <- lift (payloads_rows new_captures) ;;
      match page_products with
      | [] => set_count (page_key cat pg) 0
      | _ =>
          sig <- lift (page_signature page_products) ;;
          if sig_in sig prev then set_count (page_key cat pg) 0
          else
            added <- _dedup_and_add page_products ;;
            _ <- set_count (page_key cat pg) added ;;
            cat_loop cat f (S pg) (sig :: prev)
      end
  end.

Variable max_pages : nat.

Definition crawl_category (cat : string) : M unit := cat_loop cat max_pages 1 [].

Fixpoint crawl_categories (cats : list string) : M unit :=
  match cats with
  | [] => ret tt
  | c :: r => _ <- crawl_category c ;; crawl_categories r
  end.

(** Lines 611-622: no category discovered. *)
Fixpoint initial_pass (caps : list json) (count : nat) : M nat :=
  match caps with
  | [] => ret count
  | payload :: r =>
      rows <- lift (payloads_rows [payload]) ;;
      added <- _dedup_and_add rows ;;
      initial_pass r (count + added)
  end.

Definition initial_key : string := "initial".

(** The body of the [try] (lines 564-686) after the browser is set up:
    [initial] are the responses of the first load, [None] when that
    [page.goto] raises; [categories] is what [_discover_categories]
    returned. *)
Definition crawl_session (initial : option (list response)) (categories : list string) : M unit :=
  resps <- lift initial ;;
  _ <- add_captures (capture_all resps) ;;
  match categories with
  | [] =>
      st <- get_st ;;
      n <- initial_pass (captured st) 0 ;;
      set_count initial_key n
  | _ => crawl_categories categories
  end.

End Crawl.

(** [_detect_menu_type] *)
Definition _detect_menu_type (url : string) : option string :=
  let l := lower url in
  if contains l "/med" || contains l "medical" then Some "med"
  else if contains l "/rec" || contains l "adult" || contains l "recreational" then Some "rec"
  else None.

(** The session state when [crawl_dutchie] leaves its [try] (an exception
    is caught there and keeps the mutations made so far). *)
Definition crawl_final_state (has_playwright : bool) (url : string)
    (menu_type : option string) (max_pages : nat)
    (net : string -> nat -> option (list response))
    (initial : option (list response)) (categories : list string) : St :=
  if negb has_playwright then empty_st
  else
    let mt := match menu_type with Some m => Some m | None => _detect_menu_type url end in
    snd (crawl_session url mt net max_pages initial categories empty_st).

(** ** The returned table (lines 691-697) *)

(** [pd.to_numeric(x, errors="coerce")] on one object-column value, [None]
    standing for NaN: a number stays, a string goes through pandas' number
    parser [parse_str] (NaN when it does not parse), None, lists and dicts
    become NaN; [conv_bool] is pandas' treatment of a bool. *)
Definition pd_to_numeric (parse_str : string -> option Q) (conv_bool : bool -> option Q)
    (v : json) : option Q :=
  match v with
  | JNum q => Some q
  | JStr s => parse_str s
  | JBool b => conv_bool b
  | _ => None
  end.

Definition coerce_price {A B} (f : A -> B) (r : row_of A) : row_of B :=
  mkRow (Product r) (Menu_Type r) (Category r) (Brand r) (THC r) (CBD r)
    (f (Price r)) (Size r) (SKU r) (Source r) (Source_URL r).

(** [df] as returned: empty without rows, else one row per entry of
    [all_rows] with the Price column coerced. *)
Definition result_table (parse_str : string -> option Q) (conv_bool : bool -> option Q)
    (st : St) : list (row_of (option Q)) :=
  match all_rows st with
  | [] => []
  | rows => map (coerce_price (pd_to_numeric parse_str conv_bool)) rows
  end.

Definition crawl_dutchie (parse_str : string -> option Q) (conv_bool : bool -> option Q)
    (has_playwright : bool) (url : string) (menu_type : option string) (max_pages : nat)
    (net : string -> nat -> option (list response))
    (initial : option (list response)) (categories : list string) : list (row_of (option Q)) :=
  result_table parse_str conv_bool
    (crawl_final_state has_playwright url menu_type max_pages net initial categories).

(** ** Reading of the variant fields, following the spec's wording *)

(** The first truthy value of [vals], else [default]: what a Python
    chain [a or b or ... or z] evaluates to, with [default = z]. *)
Definition first_truthy (vals : list json) (default : json) : json :=
  match find truthy vals with
  | Some v => v
  | None => default
  end.

Definition spec_variant_price (v : json) : json :=
  first_truthy (map (get v) ["specialPrice"; "price"; "amount"; "listPrice"])
    (get v "listPrice").

Definition spec_variant_size (v : json) : option string :=
  match first_truthy (map (get v) ["size"; "weight"; "option"]) (get v "option") with
  | JNull => None
  | s => Some (py_str s)
  end.

Definition spec_variant_sku (v product : json) : option string :=
  match find truthy (map (get v) ["id"; "variantId"]) with
  | Some x => Some (py_str x)
  | None =>
      match find truthy (map (get product) ["id"; "productId"; "slug"]) with
      | Some y => Some (py_str y)
      | None => None
      end
  end.

(** A list element that passes the per-variant stock check. *)
Definition variant_passes (v : json) : bool :=
  match v with
  | JObj kvs => variant_in_stock kvs
  | _ => false
  end.

(** * Proofs *)

Open Scope list_scope.

(** ** Stock policy *)

Lemma product_level_stock_none (kvs : list (string * json)) :
  (forall k v, In (k, v) kvs -> is_stock_key k = false) ->
  product_level_stock kvs = None.
Proof.
  induction kvs as [|[k v] r IH]; intros H; simpl; [reflexivity|].
  rewrite (H k v (or_introl eq_refl)); simpl.
  apply IH. intros k' v' Hin. apply (H k' v'). right; exact Hin.
Qed.

Lemma variant_items_any_stock_true (kvs : list (string * json)) (b : bool) :
  variant_items_any_stock kvs = Some b -> b = true.
Proof.
  induction kvs as [|[k v] r IH]; simpl; [discriminate|].
  destruct (negb (is_stock_key k)); [exact IH|].
  destruct v as [|[]|q|s|l|o]; try exact IH.
  - intros H; injection H; auto.
  - destruct (num_pos q); [intros H; injection H; auto | exact IH].
  - destruct (negb _); [intros H; injection H; auto | exact IH].
Qed.

Lemma variants_any_stock_true (vs : list json) (b : bool) :
  variants_any_stock vs = Some b -> b = true.
Proof.
  induction vs as [|v r IH]; simpl; [discriminate|].
  destruct v; try exact IH.
  destruct (variant_items_any_stock kvs) eqn:E.
  - intros H; injection H as <-. eapply variant_items_any_stock_true; eauto.
  - exact IH.
Qed.

(** Once the product-level loop finds nothing, [_is_in_stock] is [True]:
    the variant-level loop only ever returns [True]. *)
Lemma is_in_stock_no_product_signal (kvs : list (string * json)) :
  product_level_stock kvs = None -> _is_in_stock kvs = true.
Proof.
  intros H. unfold _is_in_stock. rewrite H.
  destruct (variants_of (JObj kvs)) as [| | | |[|v vs]|]; try reflexivity.
  destruct (variants_any_stock (v :: vs)) eqn:E; [|reflexivity].
  eapply variants_any_stock_true; eauto.
Qed.

Lemma product_level_stock_app_skip (pre post : list (string * json)) :
  (forall k v, In (k, v) pre -> is_stock_key k = false) ->
  product_level_stock (pre ++ post) = product_level_stock post.
Proof.
  induction pre as [|[k v] r IH]; intros H; simpl; [reflexivity|].
  rewrite (H k v (or_introl eq_refl)); simpl.
  apply IH. intros k' v' Hin. apply (H k' v'). right; exact Hin.
Qed.

Lemma products_rows_single (url : string) (mt : option string) (kvs : list (string * json)) :
  products_rows url mt [JObj kvs] =
  if _is_in_stock kvs then _build_rows_from_product (JObj kvs) url mt else Some [].
Proof.
  simpl. destruct (_is_in_stock kvs); [|reflexivity].
  destruct (_build_rows_from_product (JObj kvs) url mt); [|reflexivity].
  rewrite app_nil_r. reflexivity.
Qed.

(** C1: a product node with no recognised stock field is in stock and its
    rows are kept; a node whose (first) stock signal is
    [quantityAvailable: 0] is out of stock and contributes no row. *)
Theorem C1_stock_default_inclusion :
  (forall url mt kvs,
     (forall k v, In (k, v) kvs -> is_stock_key k = false) ->
     _is_in_stock kvs = true /\
     products_rows url mt [JObj kvs] = _build_rows_from_product (JObj kvs) url mt) /\
  (forall url mt pre post,
     (forall k v, In (k, v) pre -> is_stock_key k = false) ->
     _is_in_stock (pre ++ ("quantityAvailable", JNum 0%Q) :: post) = false /\
     products_rows url mt [JObj (pre ++ ("quantityAvailable", JNum 0%Q) :: post)] = Some []).
Proof.
  split.
  - intros url mt kvs H.
    assert (Hs : _is_in_stock kvs = true)
      by (apply is_in_stock_no_product_signal, product_level_stock_none; exact H).
    split; [exact Hs|]. rewrite products_rows_single, Hs. reflexivity.
  - intros url mt pre post H.
    assert (Hs : _is_in_stock (pre ++ ("quantityAvailable", JNum 0%Q) :: post) = false).
    { unfold _is_in_stock. rewrite product_level_stock_app_skip by exact H.
      reflexivity. }
    split; [exact Hs|]. rewrite products_rows_single, Hs. reflexivity.
Qed.

Definition c1_plain : list (string * json) := [("name", JStr "Plain Jane"); ("price", JNum 30%Q)].
Definition c1_sold_out : list (string * json) := [("name", JStr "Gone"); ("price", JNum 30%Q)].

Lemma C1_stock_default_inclusion_witness :
  (_is_in_stock c1_plain = true /\
   products_rows "u" None [JObj c1_plain] = _build_rows_from_product (JObj c1_plain) "u" None) /\
  (_is_in_stock (c1_sold_out ++ ("quantityAvailable", JNum 0%Q) :: []) = false /\
   products_rows "u" None [JObj (c1_sold_out ++ ("quantityAvailable", JNum 0%Q) :: [])] = Some []).
Proof.
  split.
  - apply (proj1 C1_stock_default_inclusion "u" None c1_plain).
    intros k v Hin. simpl in Hin.
    destruct Hin as [Heq|[Heq|[]]]; injection Heq as <- <-; reflexivity.
  - apply (proj2 C1_stock_default_inclusion "u" None c1_sold_out []).
    intros k v Hin. simpl in Hin.
    destruct Hin as [Heq|[Heq|[]]]; injection Heq as <- <-; reflexivity.
Defined.

(** ** Per-variant stock strings *)

Definition c2_variant : json :=
  JObj [("stockStatus", JStr "out of stock"); ("price", JNum 40%Q); ("size", JStr "3.5g")].

Definition c2_product : json :=
  JObj [("name", JStr "Blue Dream"); ("variants", JArr [c2_variant])].

(** C2 (failing input): the same stock value ["out of stock"] excludes a
    product when it sits on the product, but a variant carrying it is
    still emitted as a row, since the variant-level list lacks
    ["out of stock"] and ["no"]. *)
Theorem C2_variant_out_of_stock_emitted :
  _is_in_stock [("name", JStr "Blue Dream"); ("stockStatus", JStr "out of stock")] = false /\
  products_rows "u" None [c2_product] =
    Some [mkRow "Blue Dream" None JNull JNull None None (JNum 40%Q) (Some "3.5g") None
            source_label "u"] /\
  variant_in_stock [("stockStatus", JStr "no")] = true.
Proof. vm_compute. repeat split; reflexivity. Qed.

(** ** Variant fan-out *)

Definition variant_row (name : string) (menu_type : option string)
    (category brand : json) (thc cbd : option string) (product_id : json)
    (source_url : string) (v : json) : row :=
  mkRow name menu_type category brand thc cbd (variant_price v) (variant_size v)
    (variant_sku v product_id) source_label source_url.

Lemma variant_rows_spec name mt category brand thc cbd product_id source_url vs :
  variant_rows name mt category brand thc cbd product_id source_url vs =
  map (variant_row name mt category brand thc cbd product_id source_url)
      (filter variant_passes vs).
Proof.
  induction vs as [|v r IH]; simpl; [reflexivity|].
  destruct v; simpl; try exact IH.
  destruct (variant_in_stock kvs); simpl; rewrite IH; reflexivity.
Qed.

Lemma build_rows_variants product source_url mt raw thc cbd vs :
  product_name product = JStr raw ->
  String.eqb (strip raw) EmptyString = false ->
  _extract_cannabinoid product "THC" = Some thc ->
  _extract_cannabinoid product "CBD" = Some cbd ->
  variants_of product = JArr vs -> vs <> [] ->
  _build_rows_from_product product source_url mt =
  Some (map (variant_row (strip raw) mt (product_category product) (product_brand product)
               thc cbd (product_id_of product) source_url)
            (filter variant_passes vs)).
Proof.
  intros Hn Hs Ht Hc Hv Hne. unfold _build_rows_from_product.
  rewrite Hn, Hs, Ht, Hc, Hv.
  destruct vs as [|v r]; [contradiction|].
  rewrite variant_rows_spec. reflexivity.
Qed.

(** C3: with a non-empty variants/options list, row building emits one
    row per variant passing the stock check, in order, each with the
    parent's name, brand and THC and the variant's own price and size;
    when no variant passes there is no row (no product-level row). *)
Theorem C3_variant_fan_out product source_url mt raw thc cbd vs :
  product_name product = JStr raw ->
  String.eqb (strip raw) EmptyString = false ->
  _extract_cannabinoid product "THC" = Some thc ->
  _extract_cannabinoid product "CBD" = Some cbd ->
  variants_of product = JArr vs -> vs <> [] ->
  exists rows,
    _build_rows_from_product product source_url mt = Some rows /\
    List.length rows = List.length (filter variant_passes vs) /\
    (forall r, In r rows ->
       Product r = strip raw /\ Brand r = product_brand product /\ THC r = thc) /\
    map (fun r => (Price r, Size r)) rows =
      map (fun v => (variant_price v, variant_size v)) (filter variant_passes vs) /\
    (filter variant_passes vs = [] -> rows = []).
Proof.
  intros Hn Hs Ht Hc Hv Hne.
  eexists. split; [eapply build_rows_variants; eauto|].
  split; [apply length_map|].
  split.
  - intros r Hin. apply in_map_iff in Hin as (v & <- & _). simpl. auto.
  - split.
    + rewrite map_map. reflexivity.
    + intros ->. reflexivity.
Qed.

Definition c3_product : json :=
  JObj [("name", JStr " OG Kush "); ("brand", JObj [("name", JStr "Acme")]);
        ("cannabinoids",
           JArr [JObj [("cannabinoid", JObj [("name", JStr "thc")]); ("value", JNum (225#10)%Q)]]);
        ("variants",
           JArr [JObj [("price", JNum 20%Q); ("size", JStr "1g"); ("inStock", JBool true)];
                 JObj [("price", JNum 35%Q); ("size", JStr "3.5g"); ("inStock", JBool false)];
                 JObj [("price", JNum 60%Q); ("weight", JStr "7g")]])].

Definition c3_variants : list json :=
  [JObj [("price", JNum 20%Q); ("size", JStr "1g"); ("inStock", JBool true)];
   JObj [("price", JNum 35%Q); ("size", JStr "3.5g"); ("inStock", JBool false)];
   JObj [("price", JNum 60%Q); ("weight", JStr "7g")]].

Lemma C3_variant_fan_out_witness :
  exists rows,
    _build_rows_from_product c3_product "u" None = Some rows /\
    List.length rows = List.length (filter variant_passes c3_variants) /\
    (forall r, In r rows ->
       Product r = strip " OG Kush " /\ Brand r = product_brand c3_product /\ THC r = Some "22.5") /\
    map (fun r => (Price r, Size r)) rows =
      map (fun v => (variant_price v, variant_size v)) (filter variant_passes c3_variants) /\
    (filter variant_passes c3_variants = [] -> rows = []).
Proof.
  apply (C3_variant_fan_out c3_product "u" None " OG Kush " (Some "22.5") None c3_variants);
    try reflexivity; discriminate.
Defined.

(** ** Variant price, size and SKU *)

Lemma py_or_first_truthy (a b : json) (rest : list json) (d : json) :
  first_truthy (a :: b :: rest) d = py_or a (first_truthy (b :: rest) d).
Proof. unfold first_truthy, py_or. simpl. destruct (truthy a); reflexivity. Qed.

Lemma first_truthy_last (a : json) : first_truthy [a] a = a.
Proof. unfold first_truthy. simpl. destruct (truthy a); reflexivity. Qed.

Lemma variant_price_spec (v : json) : variant_price v = spec_variant_price v.
Proof.
  unfold variant_price, spec_variant_price. simpl map.
  rewrite !py_or_first_truthy, first_truthy_last. reflexivity.
Qed.

Lemma variant_size_spec (v : json) : variant_size v = spec_variant_size v.
Proof.
  unfold variant_size, spec_variant_size. simpl map.
  rewrite !py_or_first_truthy, first_truthy_last. reflexivity.
Qed.

Lemma variant_sku_spec (v product : json) :
  variant_sku v (product_id_of product) = spec_variant_sku v product.
Proof.
  unfold variant_sku, spec_variant_sku, product_id_of, py_or. cbn [map find].
  destruct (truthy (get v "id")) eqn:E1; rewrite ?E1; [reflexivity|].
  destruct (truthy (get v "variantId")) eqn:E2; rewrite ?E2; [reflexivity|].
  destruct (truthy (get product "id")) eqn:F1; rewrite ?F1; [reflexivity|].
  destruct (truthy (get product "productId")) eqn:F2; rewrite ?F2; [reflexivity|].
  destruct (truthy (get product "slug")) eqn:F3; rewrite ?F3; reflexivity.
Qed.

Definition c4_variant : json :=
  JObj [("specialPrice", JNum 0%Q); ("price", JNum 25%Q); ("size", JStr "1g")].

(** C4 (counterexample): a variant whose first present price field is
    [specialPrice: 0] gets the row price 25 from [price]: the [or] chain
    skips falsy values. *)
Lemma C4_special_price_zero_skipped :
  _build_rows_from_product (JObj [("name", JStr "Gelato"); ("variants", JArr [c4_variant])]) "u" None
  = Some [mkRow "Gelato" None JNull JNull None None (JNum 25%Q) (Some "1g") None source_label "u"] /\
  get c4_variant "specialPrice" = JNum 0%Q /\
  JNum 25%Q <> JNum 0%Q.
Proof.
  split; [vm_compute; reflexivity|].
  split; [reflexivity|]. intro H. injection H. discriminate.
Qed.

(** C4 (amended): every emitted variant row takes its price from the
    first truthy of specialPrice, price, amount, listPrice (else the value
    of listPrice), its size as [str] of the first truthy of size, weight,
    option (else of option, [None] when that is null), and its SKU as
    [str] of the first truthy of the variant's id, variantId, falling back
    to the product's id, productId, slug, else [None]. *)
Theorem C4_variant_fields_first_truthy product source_url mt raw thc cbd vs :
  product_name product = JStr raw ->
  String.eqb (strip raw) EmptyString = false ->
  _extract_cannabinoid product "THC" = Some thc ->
  _extract_cannabinoid product "CBD" = Some cbd ->
  variants_of product = JArr vs -> vs <> [] ->
  exists rows,
    _build_rows_from_product product source_url mt = Some rows /\
    map (fun r => (Price r, Size r, SKU r)) rows =
      map (fun v => (spec_variant_price v, spec_variant_size v, spec_variant_sku v product))
          (filter variant_passes vs).
Proof.
  intros Hn Hs Ht Hc Hv Hne.
  eexists. split; [eapply build_rows_variants; eauto|].
  rewrite map_map. apply map_ext. intros v. simpl.
  rewrite variant_price_spec, variant_size_spec, variant_sku_spec. reflexivity.
Qed.

Lemma C4_variant_fields_first_truthy_witness :
  exists rows,
    _build_rows_from_product c3_product "u" None = Some rows /\
    map (fun r => (Price r, Size r, SKU r)) rows =
      map (fun v => (spec_variant_price v, spec_variant_size v, spec_variant_sku v c3_product))
          (filter variant_passes c3_variants).
Proof.
  apply (C4_variant_fields_first_truthy c3_product "u" None " OG Kush " (Some "22.5") None
           c3_variants); try reflexivity; discriminate.
Defined.

(** ** Fallback search for the product list *)

(** [_find_product_list]'s loops, as one function: keep the first
    strictly longest candidate. *)
Fixpoint longest_by {A : Type} (f : A -> list json) (xs : list A) (best : list json) : list json :=
  match xs with
  | [] => best
  | x :: r => longest_by f r (keep_longer best (f x))
  end.

(** The lists the search can accept: a qualifying list at depth at most
    [max_depth], reached through dict values and through the items of
    lists that do not qualify themselves. *)
Inductive reachable : nat -> json -> list json -> Prop :=
| reach_list d l :
    d <= max_depth -> qualifies l = true -> reachable d (JArr l) l
| reach_obj d kvs k v L :
    d <= max_depth -> In (k, v) kvs -> reachable (S d) v L -> reachable d (JObj kvs) L
| reach_arr d l x L :
    d <= max_depth -> qualifies l = false -> In x l -> reachable (S d) x L ->
    reachable d (JArr l) L.

Lemma find_obj_eq d kvs :
  d <= max_depth ->
  _find_product_list d (JObj kvs) =
  longest_by (fun kv => _find_product_list (S d) (snd kv)) kvs [].
Proof.
  intros Hd. simpl. replace (max_depth <? d) with false by (symmetry; apply Nat.ltb_ge; exact Hd).
  generalize (@nil json). induction kvs as [|[k v] r IH]; intros best; simpl; auto.
Qed.

Lemma find_arr_eq d l :
  d <= max_depth ->
  _find_product_list d (JArr l) =
  if qualifies l then l else longest_by (_find_product_list (S d)) l [].
Proof.
  intros Hd. simpl. replace (max_depth <? d) with false by (symmetry; apply Nat.ltb_ge; exact Hd).
  destruct (qualifies l); [reflexivity|].
  generalize (@nil json). induction l as [|x r IH]; intros best; simpl; auto.
Qed.

Lemma find_too_deep d v : max_depth < d -> _find_product_list d v = [].
Proof.
  intros Hd. destruct v; simpl; replace (max_depth <? d) with true
    by (symmetry; apply Nat.ltb_lt; exact Hd); reflexivity.
Qed.

Lemma keep_longer_ge_best best c : List.length best <= List.length (keep_longer best c).
Proof. unfold keep_longer. destruct (Nat.ltb_spec (List.length best) (List.length c)); lia. Qed.

Lemma keep_longer_ge_cand best c : List.length c <= List.length (keep_longer best c).
Proof. unfold keep_longer. destruct (Nat.ltb_spec (List.length best) (List.length c)); lia. Qed.

Lemma longest_by_ge_best {A} (f : A -> list json) xs best :
  List.length best <= List.length (longest_by f xs best).
Proof.
  revert best; induction xs as [|x r IH]; intros best; simpl; [lia|].
  etransitivity; [apply keep_longer_ge_best|apply IH].
Qed.

Lemma longest_by_ge_member {A} (f : A -> list json) xs best x :
  In x xs -> List.length (f x) <= List.length (longest_by f xs best).
Proof.
  revert best; induction xs as [|y r IH]; intros best Hin; simpl in *; [contradiction|].
  destruct Hin as [<-|Hin].
  - etransitivity; [apply keep_longer_ge_cand|apply longest_by_ge_best].
  - apply IH; exact Hin.
Qed.

Lemma longest_by_origin {A} (f : A -> list json) xs best :
  longest_by f xs best = best \/ exists x, In x xs /\ longest_by f xs best = f x.
Proof.
  revert best; induction xs as [|y r IH]; intros best; simpl; [left; reflexivity|].
  destruct (IH (keep_longer best (f y))) as [->|(x & Hx & ->)].
  - unfold keep_longer. destruct (List.length best <? List.length (f y)).
    + right. exists y. auto.
    + left. reflexivity.
  - right. exists x. auto.
Qed.

(** Everything the search returns is empty or an accepted, reachable list. *)
Lemma find_sound_n n : forall d v,
  d + n = S max_depth ->
  _find_product_list d v = [] \/ reachable d v (_find_product_list d v).
Proof.
  induction n as [|n IH]; intros d v Hdn.
  - left. apply find_too_deep. lia.
  - assert (Hd : d <= max_depth) by lia.
    destruct v as [| | | |l|kvs].
    1-4: left; simpl; destruct (max_depth <? d); reflexivity.
    + rewrite find_arr_eq by exact Hd.
      destruct (qualifies l) eqn:Hq; [right; apply reach_list; auto|].
      destruct (longest_by_origin (_find_product_list (S d)) l []) as [->|(x & Hx & ->)];
        [left; reflexivity|].
      destruct (IH (S d) x ltac:(lia)) as [He|Hr]; [left; exact He|].
      right. eapply reach_arr; eauto.
    + rewrite find_obj_eq by exact Hd.
      destruct (longest_by_origin (fun kv => _find_product_list (S d) (snd kv)) kvs [])
        as [->|([k x] & Hx & ->)]; [left; reflexivity|].
      simpl. destruct (IH (S d) x ltac:(lia)) as [He|Hr]; [left; exact He|].
      right. eapply reach_obj; eauto.
Qed.

Lemma find_sound d v :
  d <= S max_depth ->
  _find_product_list d v = [] \/ reachable d v (_find_product_list d v).
Proof. intros Hd. apply (find_sound_n (S max_depth - d)). lia. Qed.

(** The search returns a list at least as long as every reachable one. *)
Lemma find_complete d v L :
  reachable d v L -> List.length L <= List.length (_find_product_list d v).
Proof.
  induction 1 as [d l Hd Hq|d kvs k v L Hd Hin _ IH|d l x L Hd Hq Hin _ IH].
  - rewrite find_arr_eq, Hq by exact Hd. lia.
  - rewrite find_obj_eq by exact Hd.
    etransitivity; [exact IH|].
    apply (longest_by_ge_member (fun kv => _find_product_list (S d) (snd kv)) kvs [] (k, v) Hin).
  - rewrite find_arr_eq, Hq by exact Hd.
    etransitivity; [exact IH|]. apply longest_by_ge_member. exact Hin.
Qed.

Lemma qualifies_nonempty l : qualifies l = true -> l <> [].
Proof. intros H ->. discriminate. Qed.

Lemma reachable_nonempty d v L : reachable d v L -> L <> [].
Proof. induction 1; auto. apply qualifies_nonempty; assumption. Qed.

Lemma reachable_depth d v L : reachable d v L -> d <= max_depth.
Proof. destruct 1; assumption. Qed.

Lemma extract_capture_entry_obj url status ctype text body :
  is_dict body = true -> truthy body = true ->
  _extract_products_from_payload (capture_entry url status ctype text body) =
  match known_paths_hit body _PRODUCT_ARRAY_PATHS with
  | Some l => l
  | None => _find_product_list 0 body
  end.
Proof.
  intros Hd Ht. unfold _extract_products_from_payload.
  replace (get (capture_entry url status ctype text body) "json") with body by reflexivity.
  unfold py_or. rewrite Ht. cbv beta iota. rewrite Ht, Hd. reflexivity.
Qed.

Definition titled (t : string) : json := JObj [("title", JStr t)].

Definition five_titled : list json :=
  [titled "Runtz"; titled "Zkittlez"; titled "Sour Diesel"; titled "Gelato"; titled "Wedding Cake"].

(** C5 (counterexample): a document whose top level is a list of five
    dicts with a title is not searched ([_find_product_list] would accept
    it): [_extract_products_from_payload] returns [[]] for any non-dict body. *)
Lemma C5_top_level_list_ignored :
  _extract_products_from_payload
    (capture_entry "https://x/api/graphql" 200 "application/json" "[...]" (JArr five_titled)) = [] /\
  _find_product_list 0 (JArr five_titled) = five_titled /\
  five_titled <> [].
Proof. split; [reflexivity|]. split; [reflexivity|]. discriminate. Qed.

(** C5 (amended): for a (non-empty) dict document none of whose known
    paths leads to a list, the extractor returns a list at least as long
    as every list the depth-bounded search can reach and accept; what it
    returns is empty or such a list, so a document whose only reachable
    accepted list is [L] yields [L].  A document whose top level is not
    a dict (a list, a string, a number, a bool or [None]) yields [[]]. *)
Theorem C5_fallback_longest_reachable url status ctype text body :
  is_dict body = true -> truthy body = true ->
  known_paths_hit body _PRODUCT_ARRAY_PATHS = None ->
  let res := _extract_products_from_payload (capture_entry url status ctype text body) in
  (forall L, reachable 0 body L -> List.length L <= List.length res) /\
  (res = [] \/ reachable 0 body res) /\
  (forall L, reachable 0 body L -> (forall L', reachable 0 body L' -> L' = L) -> res = L) /\
  (forall b, is_dict b = false ->
     _extract_products_from_payload (capture_entry url status ctype text b) = []).
Proof.
  intros Hd Ht Hk res.
  assert (Hres : res = _find_product_list 0 body)
    by (unfold res; rewrite extract_capture_entry_obj, Hk by assumption; reflexivity).
  assert (Hs : res = [] \/ reachable 0 body res)
    by (rewrite Hres; apply find_sound; unfold max_depth; lia).
  split; [intros L HL; rewrite Hres; apply find_complete; exact HL|].
  split; [exact Hs|].
  split.
  - intros L HL Huniq. destruct Hs as [He|Hr].
    + exfalso. pose proof (find_complete _ _ _ HL) as Hlen. rewrite <- Hres, He in Hlen.
      apply (reachable_nonempty _ _ _ HL). destruct L; [reflexivity|simpl in Hlen; lia].
    + apply Huniq. exact Hr.
  - intros b Hb. unfold _extract_products_from_payload, py_or.
    replace (get (capture_entry url status ctype text b) "json") with b by reflexivity.
    replace (get (capture_entry url status ctype text b) "data") with b by reflexivity.
    destruct (truthy b); rewrite Hb; cbn [negb]; rewrite orb_true_r; reflexivity.
Qed.

Definition c5_doc : json :=
  JObj [("result", JObj [("catalog", JObj [("items", JArr five_titled)]); ("count", JNum 5%Q)])].

Lemma C5_fallback_longest_reachable_witness :
  is_dict c5_doc = true /\ truthy c5_doc = true /\
  known_paths_hit c5_doc _PRODUCT_ARRAY_PATHS = None /\
  let res := _extract_products_from_payload
               (capture_entry "https://x/graphql" 200 "application/json" "{...}" c5_doc) in
  (forall L, reachable 0 c5_doc L -> List.length L <= List.length res) /\
  (res = [] \/ reachable 0 c5_doc res) /\
  (forall L, reachable 0 c5_doc L -> (forall L', reachable 0 c5_doc L' -> L' = L) -> res = L) /\
  (forall b, is_dict b = false -> _extract_products_from_payload
               (capture_entry "https://x/graphql" 200 "application/json" "{...}" b) = []).
Proof.
  split; [reflexivity|]. split; [reflexivity|]. split; [reflexivity|].
  apply C5_fallback_longest_reachable; reflexivity.
Defined.

(** The search finds the five titled dicts of [c5_doc]. *)
Example c5_doc_found :
  _extract_products_from_payload
    (capture_entry "https://x/graphql" 200 "application/json" "{...}" c5_doc) = five_titled.
Proof. reflexivity. Qed.

(** ** The per-category loop, one step at a time *)

Definition st_log (cat : string) (pg : nat) (st : St) : St :=
  mkSt (captured st) (seen_keys st) (all_rows st) (per_page_counts st) (nav_log st ++ [(cat, pg)]).

Definition st_cap (es : list json) (st : St) : St :=
  mkSt (captured st ++ es) (seen_keys st) (all_rows st) (per_page_counts st) (nav_log st).

Lemma skipn_length_app {A} (l r : list A) : skipn (List.length l) (l ++ r) = r.
Proof. induction l; simpl; auto. Qed.

Lemma cat_loop_step url mt net cat f pg prev st :
  cat_loop url mt net cat (S f) pg prev st =
  match net cat pg with
  | None => (None, st_log cat pg st)
  | Some resps =>
      let st2 := st_cap (capture_all resps) (st_log cat pg st) in
      match payloads_rows url mt (capture_all resps) with
      | None => (None, st2)
      | Some [] => set_count (page_key cat pg) 0 st2
      | Some rows =>
          match page_signature rows with
          | None => (None, st2)
          | Some sig =>
              if sig_in sig prev then set_count (page_key cat pg) 0 st2
              else
                match _dedup_and_add rows st2 with
                | (Some added, st3) =>
                    cat_loop url mt net cat f (S pg) (sig :: prev)
                      (snd (set_count (page_key cat pg) added st3))
                | (None, st3) => (None, st3)
                end
          end
      end
  end.
Proof.
  cbn [cat_loop]. unfold bind, get_st, log_nav, lift, add_captures.
  destruct (net cat pg) as [resps|]; [|reflexivity].
  cbn beta iota. unfold st_cap, st_log. cbn [captured].
  rewrite skipn_length_app.
  destruct (payloads_rows url mt (capture_all resps)) as [[|r rs]|]; try reflexivity.
  destruct (page_signature (r :: rs)) as [sig|]; [|reflexivity].
  destruct (sig_in sig prev); [reflexivity|].
  destruct (_dedup_and_add (r :: rs) _) as [[added|] st3]; reflexivity.
Qed.

Lemma dedup_loop_frame rows added st :
  let st' := snd (dedup_loop rows added st) in
  captured st' = captured st /\ per_page_counts st' = per_page_counts st /\
  nav_log st' = nav_log st.
Proof.
  revert added st; induction rows as [|r rs IH]; intros added st; cbn [dedup_loop].
  - simpl. auto.
  - cbv zeta. destruct (key_hashable (row_key r)); cbn [negb]; [|simpl; auto].
    destruct (key_mem (row_key r) (seen_keys st)); [apply IH|].
    destruct (IH (S added) (mkSt (captured st) (row_key r :: seen_keys st)
                                 (all_rows st ++ [r]) (per_page_counts st) (nav_log st)))
      as (H1 & H2 & H3).
    simpl in H1, H2, H3. auto.
Qed.

Lemma assoc_get_set k v d : assoc_get k (assoc_set k v d) = Some v.
Proof.
  induction d as [|[k' v'] r IH]; simpl.
  - rewrite String.eqb_refl. reflexivity.
  - destruct (String.eqb k' k) eqn:E; simpl.
    + rewrite String.eqb_refl. reflexivity.
    + rewrite E. exact IH.
Qed.

(** The rows a category page yields, from the responses of its navigation. *)
Definition page_result url mt (net : string -> nat -> option (list response))
    (cat : string) (pg : nat) : option (list row) :=
  match net cat pg with
  | Some resps => payloads_rows url mt (capture_all resps)
  | None => None
  end.

Lemma cat_loop_empty_page url mt net cat n : forall k pg prev st f,
  n = pg + k ->
  page_result url mt net cat n = Some [] ->
  let B := snd (cat_loop url mt net cat f pg prev st) in
  exists new, nav_log B = nav_log st ++ new /\
    (forall c p, In (c, p) new -> c = cat /\ pg <= p <= n) /\
    (In (cat, n) new -> assoc_get (page_key cat n) (per_page_counts B) = Some 0).
Proof.
  unfold page_result.
  induction k as [|k IH]; intros pg prev st f Hn Hpage; cbv zeta.
  - destruct f as [|f]; [exists []; rewrite app_nil_r; simpl; intuition|].
    rewrite Nat.add_0_r in Hn; subst pg.
    rewrite cat_loop_step.
    destruct (net cat n) as [resps|]; [|discriminate]. rewrite Hpage.
    exists [(cat, n)]. simpl. split; [reflexivity|]. split.
    + intros c p [H|[]]. injection H as <- <-. split; [reflexivity|lia].
    + intros _. apply assoc_get_set.
  - destruct f as [|f]; [exists []; rewrite app_nil_r; simpl; intuition|].
    rewrite cat_loop_step.
    assert (Hstop : forall st', nav_log st' = nav_log st ++ [(cat, pg)] ->
              exists new, nav_log st' = nav_log st ++ new /\
                (forall c p, In (c, p) new -> c = cat /\ pg <= p <= n) /\
                (In (cat, n) new -> assoc_get (page_key cat n) (per_page_counts st') = Some 0)).
    { intros st' Hl. exists [(cat, pg)]. split; [exact Hl|]. split.
      - intros c p [H|[]]. injection H as <- <-. split; [reflexivity|lia].
      - intros [H|[]]. injection H. lia. }
    destruct (net cat pg) as [resps|]; [|apply Hstop; reflexivity].
    cbn zeta.
    destruct (payloads_rows url mt (capture_all resps)) as [[|r rs]|];
      [apply Hstop; reflexivity| |apply Hstop; reflexivity].
    destruct (page_signature (r :: rs)) as [sig|]; [|apply Hstop; reflexivity].
    destruct (sig_in sig prev); [apply Hstop; reflexivity|].
    pose proof (dedup_loop_frame (r :: rs) 0
                  (st_cap (capture_all resps) (st_log cat pg st))) as (_ & _ & Hnav).
    unfold _dedup_and_add.
    destruct (dedup_loop (r :: rs) 0 (st_cap (capture_all resps) (st_log cat pg st)))
      as [[added|] st3] eqn:Ed; simpl in Hnav.
    + destruct (IH (S pg) (sig :: prev) (snd (set_count (page_key cat pg) added st3)) f
                  ltac:(lia) Hpage) as (new & Hl & Hb & Hz).
      exists ((cat, pg) :: new). split.
      * rewrite Hl. simpl. rewrite Hnav. simpl. rewrite <- app_assoc. reflexivity.
      * split.
        -- intros c p [H|H]; [injection H as <- <-; split; [reflexivity|lia]|].
           destruct (Hb c p H) as [Hc Hp]. split; [exact Hc|lia].
        -- intros [H|H]; [injection H; lia|]. apply Hz. exact H.
    + apply Hstop. simpl. rewrite Hnav. reflexivity.
Qed.

(** C6: if the responses of the navigation to page [n] of a category
    yield no row, the crawl of that category requests no page beyond [n],
    and once page [n] was requested its count is recorded as 0. *)
Theorem C6_stop_on_empty_page url mt net max_pages cat n st :
  1 <= n ->
  page_result url mt net cat n = Some [] ->
  let st' := snd (crawl_category url mt net max_pages cat st) in
  exists new, nav_log st' = nav_log st ++ new /\
    (forall c p, In (c, p) new -> c = cat /\ 1 <= p <= n) /\
    (In (cat, n) new -> assoc_get (page_key cat n) (per_page_counts st') = Some 0).
Proof.
  intros Hn Hpage. unfold crawl_category.
  apply (cat_loop_empty_page url mt net cat n (n - 1)); [lia|exact Hpage].
Qed.

Definition menu_response (products : list json) : response :=
  mkResponse "https://dutchie.com/graphql?operationName=FilteredProducts" 200
    "application/json" "{...}"
    (Some (JObj [("data", JObj [("filteredProducts", JObj [("products", JArr products)])])])).

Definition simple_product (name : string) (price : Q) : json :=
  JObj [("name", JStr name); ("price", JNum price)].

(** A vendor whose Flower category has products on pages 1, 2 and 4 but
    none on page 3. *)
Definition c6_net (cat : string) (pg : nat) : option (list response) :=
  if String.eqb cat "Flower" then
    match pg with
    | 1 => Some [menu_response [simple_product "Runtz" 30]]
    | 2 => Some [menu_response [simple_product "Gelato" 35]]
    | 3 => Some [menu_response []]
    | _ => Some [menu_response [simple_product "Zkittlez" 40]]
    end
  else Some [].

Lemma C6_stop_on_empty_page_witness :
  1 <= 3 /\ page_result "https://shop/menu" None c6_net "Flower" 3 = Some [] /\
  let st' := snd (crawl_category "https://shop/menu" None c6_net 20 "Flower" empty_st) in
  exists new, nav_log st' = nav_log empty_st ++ new /\
    (forall c p, In (c, p) new -> c = "Flower" /\ 1 <= p <= 3) /\
    (In ("Flower", 3) new -> assoc_get (page_key "Flower" 3) (per_page_counts st') = Some 0).
Proof.
  split; [lia|]. split; [vm_compute; reflexivity|].
  apply C6_stop_on_empty_page; [lia|vm_compute; reflexivity].
Defined.

Example c6_net_log :
  nav_log (snd (crawl_category "https://shop/menu" None c6_net 20 "Flower" empty_st))
  = [("Flower", 1); ("Flower", 2); ("Flower", 3)].
Proof. vm_compute. reflexivity. Qed.

(** ** Repeated signatures *)

Lemma sig_in_cons_hit s s' prev : sig_eqb s s' = true -> sig_in s (s' :: prev) = true.
Proof. intros H. simpl. rewrite H. reflexivity. Qed.

Lemma sig_in_cons_keep s s' prev : sig_in s prev = true -> sig_in s (s' :: prev) = true.
Proof. intros H. simpl. rewrite H. apply orb_true_r. Qed.

Section Repeat.

Variables (url : string) (mt : option string) (net : string -> nat -> option (list response)).
Variables (cat : string) (m n : nat) (rows_m rows_n : list row) (sig_m sig_n : signature).
Hypothesis Hm : page_result url mt net cat m = Some rows_m.
Hypothesis Hsm : page_signature rows_m = Some sig_m.
Hypothesis Hn : page_result url mt net cat n = Some rows_n.
Hypothesis Hsn : page_signature rows_n = Some sig_n.
Hypothesis Heq : sig_eqb sig_n sig_m = true.
Hypothesis Hmn : m < n.

(** Run [A] has a page cap one short of [n]; run [B] may go beyond. *)
Lemma cat_loop_repeat : forall k pg prev st fa fb,
  n = pg + k -> fa = k -> k < fb ->
  (sig_in sig_n prev = true \/ pg <= m) ->
  let A := snd (cat_loop url mt net cat fa pg prev st) in
  let B := snd (cat_loop url mt net cat fb pg prev st) in
  all_rows B = all_rows A /\ seen_keys B = seen_keys A /\
  exists new, nav_log B = nav_log st ++ new /\
    (forall c p, In (c, p) new -> c = cat /\ pg <= p <= n).
Proof.
  unfold page_result in Hm, Hn.
  induction k as [|k IH]; intros pg prev st fa fb Hk Hfa Hfb Hprev; cbv zeta.
  - subst fa. destruct fb as [|fb]; [lia|].
    rewrite Nat.add_0_r in Hk; subst pg.
    destruct Hprev as [Hprev|Hle]; [|lia].
    rewrite cat_loop_step. cbn [cat_loop snd].
    destruct (net cat n) as [resps|]; [|discriminate]. cbn zeta. rewrite Hn.
    destruct rows_n as [|r rs].
    + simpl. split; [reflexivity|]. split; [reflexivity|].
      exists [(cat, n)]. split; [reflexivity|].
      intros c p [H|[]]. injection H as <- <-. split; [reflexivity|lia].
    + rewrite Hsn, Hprev. simpl. split; [reflexivity|]. split; [reflexivity|].
      exists [(cat, n)]. split; [reflexivity|].
      intros c p [H|[]]. injection H as <- <-. split; [reflexivity|lia].
  - subst fa. destruct fb as [|fb]; [lia|].
    rewrite !cat_loop_step.
    assert (Hsame : forall st', nav_log st' = nav_log st ++ [(cat, pg)] ->
              all_rows st' = all_rows st' /\ seen_keys st' = seen_keys st' /\
              exists new, nav_log st' = nav_log st ++ new /\
                (forall c p, In (c, p) new -> c = cat /\ pg <= p <= n)).
    { intros st' Hl. split; [reflexivity|]. split; [reflexivity|].
      exists [(cat, pg)]. split; [exact Hl|].
      intros c p [H|[]]. injection H as <- <-. split; [reflexivity|lia]. }
    destruct (net cat pg) as [resps|] eqn:Enet; [|apply Hsame; reflexivity].
    cbn zeta.
    destruct (payloads_rows url mt (capture_all resps)) as [[|r rs]|] eqn:Erows;
      [apply Hsame; reflexivity| |apply Hsame; reflexivity].
    destruct (page_signature (r :: rs)) as [sig|] eqn:Esig; [|apply Hsame; reflexivity].
    destruct (sig_in sig prev); [apply Hsame; reflexivity|].
    pose proof (dedup_loop_frame (r :: rs) 0
                  (st_cap (capture_all resps) (st_log cat pg st))) as (_ & _ & Hnav).
    unfold _dedup_and_add.
    destruct (dedup_loop (r :: rs) 0 (st_cap (capture_all resps) (st_log cat pg st)))
      as [[added|] st3] eqn:Ed; simpl in Hnav; [|apply Hsame; simpl; rewrite Hnav; reflexivity].
    assert (Hprev' : sig_in sig_n (sig :: prev) = true \/ S pg <= m).
    { destruct Hprev as [Hp|Hle]; [left; apply sig_in_cons_keep; exact Hp|].
      destruct (Nat.eq_dec pg m) as [->|Hne]; [|right; lia].
      left. apply sig_in_cons_hit.
      rewrite Enet, Erows in Hm. injection Hm as <-. rewrite Esig in Hsm.
      injection Hsm as <-. exact Heq. }
    destruct (IH (S pg) (sig :: prev) (snd (set_count (page_key cat pg) added st3)) k fb
                ltac:(lia) eq_refl ltac:(lia) Hprev') as (Hr & Hs & new & Hl & Hb).
    split; [exact Hr|]. split; [exact Hs|].
    exists ((cat, pg) :: new). split.
    + rewrite Hl. simpl. rewrite Hnav. simpl. rewrite <- app_assoc. reflexivity.
    + intros c p [H|H]; [injection H as <- <-; split; [reflexivity|lia]|].
      destruct (Hb c p H) as [Hc Hp]. split; [exact Hc|lia].
Qed.

End Repeat.

(** C7: if page [n] of a category has the same (name, price, size)
    signature set as an earlier page [m], the category's crawl adds
    exactly the rows (and dedup keys) that a crawl capped at page [n - 1]
    adds, so page [n]'s rows are not added, and it requests no page
    beyond [n]. *)
Theorem C7_stop_on_repeated_signature url mt net max_pages cat m n rows_m rows_n sig_m sig_n st :
  1 <= m -> m < n -> n <= max_pages ->
  page_result url mt net cat m = Some rows_m -> page_signature rows_m = Some sig_m ->
  page_result url mt net cat n = Some rows_n -> page_signature rows_n = Some sig_n ->
  sig_eqb sig_n sig_m = true ->
  let full := snd (crawl_category url mt net max_pages cat st) in
  let capped := snd (crawl_category url mt net (n - 1) cat st) in
  all_rows full = all_rows capped /\ seen_keys full = seen_keys capped /\
  exists new, nav_log full = nav_log st ++ new /\
    (forall c p, In (c, p) new -> c = cat /\ 1 <= p <= n).
Proof.
  intros H1m Hmn Hmax Hm Hsm Hn Hsn Heq. unfold crawl_category.
  apply (cat_loop_repeat url mt net cat m n rows_m rows_n sig_m sig_n Hm Hsm Hn Hsn Heq Hmn
           (n - 1)); lia.
Qed.

(** A vendor that clamps the page number: every page of a category
    re-serves the first one. *)
Definition c7_net (cat : string) (pg : nat) : option (list response) :=
  Some [menu_response [simple_product "Runtz" 30; simple_product "Gelato" 35]].

Definition c7_rows : list row :=
  match page_result "https://shop/menu" None c7_net "Flower" 1 with Some r => r | None => [] end.

Definition c7_sig : signature :=
  match page_signature c7_rows with Some s => s | None => [] end.

Lemma C7_stop_on_repeated_signature_witness :
  page_result "https://shop/menu" None c7_net "Flower" 1 = Some c7_rows /\
  page_result "https://shop/menu" None c7_net "Flower" 2 = Some c7_rows /\
  page_signature c7_rows = Some c7_sig /\ sig_eqb c7_sig c7_sig = true /\
  let full := snd (crawl_category "https://shop/menu" None c7_net 20 "Flower" empty_st) in
  let capped := snd (crawl_category "https://shop/menu" None c7_net (2 - 1) "Flower" empty_st) in
  all_rows full = all_rows capped /\ seen_keys full = seen_keys capped /\
  exists new, nav_log full = nav_log empty_st ++ new /\
    (forall c p, In (c, p) new -> c = "Flower" /\ 1 <= p <= 2).
Proof.
  split; [vm_compute; reflexivity|]. split; [vm_compute; reflexivity|].
  split; [vm_compute; reflexivity|]. split; [vm_compute; reflexivity|].
  apply (C7_stop_on_repeated_signature "https://shop/menu" None c7_net 20 "Flower" 1 2
           c7_rows c7_rows c7_sig c7_sig); try lia; vm_compute; reflexivity.
Defined.

Example c7_net_rows :
  List.length (all_rows (snd (crawl_category "https://shop/menu" None c7_net 20 "Flower" empty_st))) = 2 /\
  nav_log (snd (crawl_category "https://shop/menu" None c7_net 20 "Flower" empty_st))
  = [("Flower", 1); ("Flower", 2)].
Proof. vm_compute. split; reflexivity. Qed.

(** ** Dedup keys *)
Lemma Qeq_bool_sym_b x y : Qeq_bool x y = Qeq_bool y x.
Proof.
  destruct (Qeq_bool x y) eqn:E1, (Qeq_bool y x) eqn:E2; auto.
  - apply Qeq_bool_iff in E1. apply Qeq_bool_neq in E2. exfalso. apply E2. symmetry. exact E1.
  - apply Qeq_bool_iff in E2. apply Qeq_bool_neq in E1. exfalso. apply E1. symmetry. exact E2.
Qed.
Lemma scalar_eqb_sym a b : scalar_eqb a b = scalar_eqb b a.
Proof.
  destruct a, b; cbn [scalar_eqb]; try reflexivity.
  all: first [apply Qeq_bool_sym_b | apply String.eqb_sym | destruct b; destruct b0; reflexivity].
Qed.
Lemma key_eqb_sym a b : key_eqb a b = key_eqb b a.
Proof.
  destruct a as [[n1 p1] s1], b as [[n2 p2] s2]. cbn [key_eqb].
  rewrite String.eqb_sym, scalar_eqb_sym.
  destruct s1, s2; cbn [opt_str_eqb]; try reflexivity. rewrite (String.eqb_sym s s0). reflexivity.
Qed.

Lemma key_eqb_refl k : key_hashable k = true -> key_eqb k k = true.
Proof.
  destruct k as [[n p] s]. cbn [key_hashable key_eqb]. intros Hh.
  rewrite String.eqb_refl. cbn [andb].
  assert (Hp : scalar_eqb p p = true).
  { destruct p; cbn [scalar_eqb]; try discriminate; try reflexivity.
    - destruct b; reflexivity.
    - apply Qeq_bool_iff. reflexivity.
    - apply String.eqb_refl. }
  rewrite Hp. destruct s; cbn [opt_str_eqb]; [apply String.eqb_refl|reflexivity].
Qed.
(** No two rows share a dedup key (Python [==] on the triple). *)
Fixpoint keys_distinct (rows : list row) : Prop :=
  match rows with
  | [] => True
  | r :: rs => (forall r', In r' rs -> key_eqb (row_key r) (row_key r') = false) /\ keys_distinct rs
  end.

Lemma keys_distinct_snoc rows r :
  keys_distinct rows ->
  (forall r', In r' rows -> key_eqb (row_key r') (row_key r) = false) ->
  keys_distinct (rows ++ [r]).
Proof.
  induction rows as [|x xs IH]; cbn [app keys_distinct]; intros Hd Hn.
  { split; [intros r' []|exact I]. }
  destruct Hd as [Hx Hxs]. split.
  - intros r' Hin. apply in_app_or in Hin as [Hin|[<-|[]]]; [apply Hx; exact Hin|].
    apply Hn. left. reflexivity.
  - apply IH; [exact Hxs|]. intros r' Hin. apply Hn. right. exact Hin.
Qed.

(** The crawl-wide dedup invariant: [seen_keys] holds exactly the keys of
    [all_rows], and those are pairwise distinct. *)
Definition dedup_inv (st : St) : Prop :=
  keys_distinct (all_rows st) /\
  forall k, key_mem k (seen_keys st) = true <->
            exists r, In r (all_rows st) /\ key_eqb k (row_key r) = true.

Lemma dedup_loop_inv rows : forall added st,
  dedup_inv st -> dedup_inv (snd (dedup_loop rows added st)).
Proof.
  induction rows as [|r rs IH]; intros added st Hinv; cbn [dedup_loop]; [exact Hinv|].
  cbv zeta. destruct (key_hashable (row_key r)) eqn:Hh; cbn [negb]; [|exact Hinv].
  destruct (key_mem (row_key r) (seen_keys st)) eqn:Hm; [apply IH; exact Hinv|].
  apply IH. destruct Hinv as [Hd Hiff]. split; simpl.
  - apply keys_distinct_snoc; [exact Hd|].
    intros r' Hin. rewrite key_eqb_sym.
    destruct (key_eqb (row_key r) (row_key r')) eqn:E; [|reflexivity].
    exfalso. assert (Hc : key_mem (row_key r) (seen_keys st) = true)
      by (apply Hiff; exists r'; auto).
    congruence.
  - intros k. split.
    + intros Hk. apply orb_true_iff in Hk as [Hk|Hk].
      * exists r. split; [apply in_or_app; right; left; reflexivity|exact Hk].
      * apply Hiff in Hk as (r' & Hin & Hr'). exists r'. split; [apply in_or_app; left; exact Hin|exact Hr'].
    + intros (r' & Hin & Hr'). apply orb_true_iff.
      apply in_app_or in Hin as [Hin|[<-|[]]].
      * right. apply Hiff. exists r'. auto.
      * left. exact Hr'.
Qed.

(** The keys of [all_rows] only grow and [seen_keys] never loses a key. *)
Definition grows (st st' : St) : Prop :=
  (exists more, all_rows st' = all_rows st ++ more) /\
  forall k, key_mem k (seen_keys st) = true -> key_mem k (seen_keys st') = true.

Lemma grows_refl st : grows st st.
Proof. split; [exists []; rewrite app_nil_r; reflexivity|auto]. Qed.

Lemma grows_trans a b c : grows a b -> grows b c -> grows a c.
Proof.
  intros [[m1 H1] S1] [[m2 H2] S2]. split; [exists (m1 ++ m2); rewrite H2, H1, app_assoc; reflexivity|].
  auto.
Qed.

Lemma dedup_loop_grows rows : forall added st, grows st (snd (dedup_loop rows added st)).
Proof.
  induction rows as [|r rs IH]; intros added st; cbn [dedup_loop]; [apply grows_refl|].
  cbv zeta. destruct (key_hashable (row_key r)); cbn [negb]; [|apply grows_refl].
  destruct (key_mem (row_key r) (seen_keys st)); [apply IH|].
  eapply grows_trans; [|apply IH].
  split; simpl; [exists [r]; reflexivity|].
  intros k Hk. apply orb_true_iff. right. exact Hk.
Qed.

(** ** Whole-session facts, for any reflexive and transitive relation on
    states that every primitive state update respects *)

Section Steps.

Variable R : St -> St -> Prop.
Hypothesis R_refl : forall st, R st st.
Hypothesis R_trans : forall a b c, R a b -> R b c -> R a c.

Definition steps {A} (m : M A) : Prop := forall st, R st (snd (m st)).

Hypothesis R_set_count : forall k v, steps (set_count k v).
Hypothesis R_add_captures : forall es, steps (add_captures es).
Hypothesis R_log_nav : forall c p, steps (log_nav c p).
Hypothesis R_dedup : forall rows, steps (_dedup_and_add rows).

Lemma steps_ret {A} (a : A) : steps (ret a).
Proof. intros st. apply R_refl. Qed.

Lemma steps_lift {A} (o : option A) : steps (lift o).
Proof. intros st. apply R_refl. Qed.

Lemma steps_get : steps get_st.
Proof. intros st. apply R_refl. Qed.

Lemma steps_bind {A B} (m : M A) (k : A -> M B) :
  steps m -> (forall a, steps (k a)) -> steps (bind m k).
Proof.
  intros Hm Hk st. unfold bind. specialize (Hm st).
  destruct (m st) as [[a|] st']; [|exact Hm].
  eapply R_trans; [exact Hm|apply Hk].
Qed.

Ltac steps_tac :=
  repeat first
    [ apply steps_bind; [| intro]
    | apply steps_ret | apply steps_lift | apply steps_get
    | apply R_set_count | apply R_add_captures | apply R_log_nav | apply R_dedup
    | progress cbv zeta ].

Lemma steps_cat_loop url mt net cat fuel : forall pg prev,
  steps (cat_loop url mt net cat fuel pg prev).
Proof.
  induction fuel as [|f IH]; intros pg prev; cbn [cat_loop]; [apply steps_ret|].
  steps_tac.
  match goal with |- steps (match ?x with _ => _ end) => destruct x end;
    steps_tac.
  match goal with |- steps (if ?b then _ else _) => destruct b end; steps_tac.
  apply IH.
Qed.

Lemma steps_crawl_categories url mt net max_pages cats :
  steps (crawl_categories url mt net max_pages cats).
Proof.
  induction cats as [|c cs IH]; cbn [crawl_categories]; [apply steps_ret|].
  apply steps_bind; [apply steps_cat_loop|intros _; exact IH].
Qed.

Lemma steps_initial_pass url mt caps : forall count, steps (initial_pass url mt caps count).
Proof.
  induction caps as [|p ps IH]; intros count; cbn [initial_pass]; [apply steps_ret|].
  steps_tac. apply IH.
Qed.

Lemma steps_crawl_session url mt net max_pages initial cats :
  steps (crawl_session url mt net max_pages initial cats).
Proof.
  unfold crawl_session. steps_tac.
  destruct cats as [|c cs].
  - steps_tac. apply steps_initial_pass.
  - apply steps_crawl_categories.
Qed.

Lemma steps_crawl_final_state hp url mt max_pages net initial cats :
  R empty_st (crawl_final_state hp url mt max_pages net initial cats).
Proof.
  unfold crawl_final_state. destruct hp; cbn [negb]; [|apply R_refl].
  apply steps_crawl_session.
Qed.

End Steps.

Definition inv_rel (st st' : St) : Prop := dedup_inv st -> dedup_inv st'.

Lemma dedup_inv_empty : dedup_inv empty_st.
Proof.
  unfold dedup_inv. split; [exact I|]. intros k. cbn. split; [discriminate|].
  intros (r & [] & _).
Qed.

Lemma dedup_inv_final hp url mt max_pages net initial cats :
  dedup_inv (crawl_final_state hp url mt max_pages net initial cats).
Proof.
  apply (steps_crawl_final_state inv_rel); unfold inv_rel, steps.
  - intros st H. exact H.
  - intros x y z H1 H2 H. apply H2, H1, H.
  - intros k v [] H. exact H.
  - intros es [] H. exact H.
  - intros c p [] H. exact H.
  - intros rows st H. apply dedup_loop_inv. exact H.
  - apply dedup_inv_empty.
Qed.

Lemma grows_crawl_categories url mt net max_pages cats st :
  grows st (snd (crawl_categories url mt net max_pages cats st)).
Proof.
  revert st. apply steps_crawl_categories.
  - apply grows_refl.
  - apply grows_trans.
  - intros k v []. split; [exists []; cbn; rewrite app_nil_r; reflexivity|auto].
  - intros es []. split; [exists []; cbn; rewrite app_nil_r; reflexivity|auto].
  - intros c p []. split; [exists []; cbn; rewrite app_nil_r; reflexivity|auto].
  - intros rows st. apply dedup_loop_grows.
Qed.

Lemma key_mem_grows rows added st k :
  key_mem k (seen_keys st) = true ->
  key_mem k (seen_keys (snd (dedup_loop rows added st))) = true.
Proof. apply (dedup_loop_grows rows added st). Qed.

(** A second pass over the same rows, from the state the first pass left,
    skips every row the first pass handled and raises where it raised. *)
Lemma dedup_loop_twice rows : forall a b st,
  dedup_loop rows b (snd (dedup_loop rows a st)) =
  (option_map (fun _ => b) (fst (dedup_loop rows a st)), snd (dedup_loop rows a st)).
Proof.
  induction rows as [|r rs IH]; intros a b st; cbn [dedup_loop]; [reflexivity|].
  cbv zeta. destruct (key_hashable (row_key r)) eqn:Hh; cbn [negb]; [|reflexivity].
  destruct (key_mem (row_key r) (seen_keys st)) eqn:Hm.
  - rewrite (key_mem_grows rs a st (row_key r) Hm). apply IH.
  - match goal with |- context [dedup_loop rs (S a) ?s] => set (st1 := s) end.
    assert (Hk : key_mem (row_key r) (seen_keys st1) = true).
    { cbn [st1 seen_keys key_mem existsb]. rewrite key_eqb_refl by exact Hh. reflexivity. }
    rewrite (key_mem_grows rs (S a) st1 (row_key r) Hk). apply IH.
Qed.

(** C8: the dedup key set lives in the session state and is never reset:
    (1) at the end of any crawl, [seen_keys] holds exactly the keys of the
    accumulated rows, and no two accumulated rows have [==] keys, so a
    (name, price, size) triple served under several categories or pages is
    in the final table once; (2) crawling further categories only appends
    rows and never drops a seen key; (3) feeding the same rows through
    [_dedup_and_add] a second time accepts nothing new: the accumulated
    rows and the key set stay as the first pass left them, and a second
    pass after a successful first one reports 0 added. *)
Theorem C8_dedup_global_idempotent :
  (forall hp url mt max_pages net initial cats,
     let st := crawl_final_state hp url mt max_pages net initial cats in
     keys_distinct (all_rows st) /\
     forall k, key_mem k (seen_keys st) = true <->
               exists r, In r (all_rows st) /\ key_eqb k (row_key r) = true) /\
  (forall url mt net max_pages cats st,
     let st' := snd (crawl_categories url mt net max_pages cats st) in
     (exists more, all_rows st' = all_rows st ++ more) /\
     forall k, key_mem k (seen_keys st) = true -> key_mem k (seen_keys st') = true) /\
  (forall rows st,
     let st1 := snd (_dedup_and_add rows st) in
     let st2 := snd (_dedup_and_add rows st1) in
     all_rows st2 = all_rows st1 /\ seen_keys st2 = seen_keys st1 /\
     forall n, fst (_dedup_and_add rows st) = Some n -> fst (_dedup_and_add rows st1) = Some 0).
Proof.
  split; [|split].
  - intros hp url mt max_pages net initial cats. apply dedup_inv_final.
  - intros url mt net max_pages cats st. apply grows_crawl_categories.
  - intros rows st. cbv zeta. unfold _dedup_and_add.
    rewrite (dedup_loop_twice rows 0 0 st). cbn [fst snd].
    split; [reflexivity|split; [reflexivity|]].
    intros n Hn. rewrite Hn. reflexivity.
Qed.

(** Two categories that serve the same two products: each product is in
    the table once, and the second category's page adds nothing. *)
Example c8_cross_category :
  let st := crawl_final_state true "https://shop/menu" None 1 c7_net (Some [])
              ["Flower"; "Vape"] in
  List.length (all_rows st) = 2 /\
  assoc_get (page_key "Vape" 1) (per_page_counts st) = Some 0.
Proof. vm_compute. split; reflexivity. Qed.

(** ** THC and CBD of the crawler's rows *)






Definition c9_row0 : row :=
  mkRow EmptyString None JNull JNull None None JNull None None EmptyString EmptyString.




(** ** The Price column of the returned table *)

Lemma coerce_price_ext {A B} (f g : A -> B) (r : row_of A) :
  f (Price r) = g (Price r) -> coerce_price f r = coerce_price g r.
Proof. intros H. unfold coerce_price. rewrite H. reflexivity. Qed.

(** C10: whenever the crawl ends with at least one row, the returned table
    is the accumulated rows with the Price column passed through
    [pd.to_numeric(errors="coerce")]: a row whose stored Price is a string
    that does not parse as a number appears with Price NaN ([None]) and all
    other columns unchanged, and a numeric Price is kept. *)
Theorem C10_price_coerced_to_numeric parse_str conv_bool hp url mt max_pages net initial cats :
  let st := crawl_final_state hp url mt max_pages net initial cats in
  let df := crawl_dutchie parse_str conv_bool hp url mt max_pages net initial cats in
  all_rows st <> [] ->
  df = map (coerce_price (pd_to_numeric parse_str conv_bool)) (all_rows st) /\
  (forall r s, In r (all_rows st) -> Price r = JStr s -> parse_str s = None ->
     In (coerce_price (fun _ : json => (None : option Q)) r) df) /\
  (forall r q, In r (all_rows st) -> Price r = JNum q ->
     In (coerce_price (fun _ : json => Some q) r) df).
Proof.
  cbv zeta. intros Hne. unfold crawl_dutchie, result_table.
  destruct (all_rows (crawl_final_state hp url mt max_pages net initial cats)) as [|r0 rs];
    [contradiction Hne; reflexivity|].
  split; [reflexivity|split].
  - intros r s Hin Hp Hs.
    rewrite <- (coerce_price_ext (pd_to_numeric parse_str conv_bool)) by (rewrite Hp; exact Hs).
    apply in_map. exact Hin.
  - intros r q Hin Hp.
    rewrite <- (coerce_price_ext (pd_to_numeric parse_str conv_bool)) by (rewrite Hp; reflexivity).
    apply in_map. exact Hin.
Qed.

(** An unsigned decimal number ([digits], optionally with one [.]),
    the part of pandas' string-to-number parsing the example needs. *)
Definition digit_of (c : ascii) : option Z :=
  let n := nat_of_ascii c in
  if (48 <=? n) && (n <=? 57) then Some (Z.of_nat (n - 48)) else None.

Fixpoint dec_loop (s : string) (m : Z) (e : nat) (dot : bool) (nd : nat) : option Q :=
  match s with
  | EmptyString => if Nat.eqb nd 0 then None else Some (Qmake m (Pos.of_nat (Nat.pow 10 e)))
  | String c r =>
      if Ascii.eqb c "." then (if dot then None else dec_loop r m e true nd)
      else match digit_of c with
           | Some d => dec_loop r (m * 10 + d)%Z (if dot then S e else e) dot (S nd)
           | None => None
           end
  end.

Definition parse_decimal (s : string) : option Q := dec_loop (strip s) 0%Z 0 false 0.

Definition c10_net (cat : string) (pg : nat) : option (list response) :=
  Some [menu_response [JObj [("name", JStr "Runtz"); ("price", JStr "$10.00")];
                       JObj [("name", JStr "Gelato"); ("price", JStr "12.50")]]].

Definition c10_state : St :=
  crawl_final_state true "https://shop/menu" None 1 c10_net (Some []) ["Flower"].

Definition c10_table : list (row_of (option Q)) :=
  crawl_dutchie parse_decimal (fun b => Some (bool_to_Q b)) true "https://shop/menu" None 1
    c10_net (Some []) ["Flower"].

Definition c10_row : row := hd c9_row0 (all_rows c10_state).

Lemma C10_price_coerced_to_numeric_witness :
  all_rows c10_state <> [] /\ Price c10_row = JStr "$10.00" /\
  In (coerce_price (fun _ : json => (None : option Q)) c10_row) c10_table.
Proof.
  assert (Hne : all_rows c10_state <> []) by (vm_compute; intro H; discriminate H).
  split; [exact Hne|]. split; [vm_compute; reflexivity|].
  destruct (C10_price_coerced_to_numeric parse_decimal (fun b => Some (bool_to_Q b)) true
              "https://shop/menu" None 1 c10_net (Some []) ["Flower"] Hne) as [_ [H _]].
  apply (H c10_row "$10.00"); vm_compute; [left; reflexivity|reflexivity|reflexivity].
Defined.

Example c10_table_prices :
  map (fun r => (Product r, Price r)) c10_table
  = [("Runtz", None); ("Gelato", Some (1250 # 100)%Q)].
Proof. vm_compute. reflexivity. Qed.

Lemma variant_items_any_stock_some kvs b : variant_items_any_stock kvs = Some b -> b = true.
Proof.
  induction kvs as [|[k v] r IH]; cbn [variant_items_any_stock]; [discriminate|].
  destruct (negb (is_stock_key k)); [exact IH|].
  destruct v as [|[]| | | |]; try exact IH; try (intros [=<-]; reflexivity);
    match goal with |- (if ?c then _ else _) = _ -> _ => destruct c end;
    first [intros [=<-]; reflexivity | exact IH].
Qed.

Lemma variants_any_stock_some vs b : variants_any_stock vs = Some b -> b = true.
Proof.
  induction vs as [|v r IH]; cbn [variants_any_stock]; [discriminate|].
  destruct v; try exact IH.
  destruct (variant_items_any_stock kvs) eqn:E; [intros [=<-]; exact (variant_items_any_stock_some _ _ E)|exact IH].
Qed.

(** [_is_in_stock] is decided by the product-level stock fields alone:
    the first stock key holding a bool, a string or a number decides, and
    without one the product counts as in stock, since the variant scan can
    only ever return [True]. *)
Theorem is_in_stock_product_level_only kvs :
  _is_in_stock kvs = match product_level_stock kvs with Some b => b | None => true end.
Proof.
  unfold _is_in_stock. destruct (product_level_stock kvs); [reflexivity|].
  destruct (variants_of (JObj kvs)) as [| | | |[|v vs]|]; try reflexivity.
  destruct (variants_any_stock (v :: vs)) eqn:E; [|reflexivity].
  exact (variants_any_stock_some _ _ E).
Qed.

Lemma strip_nonempty_string raw : String.eqb (strip raw) EmptyString = false -> strip raw <> EmptyString.
Proof. intros H E. rewrite E in H. discriminate H. Qed.

Lemma variant_rows_fields name mt category brand thc cbd pid url vs r :
  In r (variant_rows name mt category brand thc cbd pid url vs) ->
  Product r = name /\ Menu_Type r = mt /\ Category r = category /\ Brand r = brand /\
  Source r = source_label /\ Source_URL r = url.
Proof.
  rewrite variant_rows_spec. intros Hin. apply in_map_iff in Hin as (v & <- & _).
  repeat split.
Qed.

(** Every row [_build_rows_from_product] builds carries the product's
    stripped, non-empty name, the given menu type, the product's category
    and brand, the label ["Dutchie GraphQL"] and the given source URL. *)
Theorem build_rows_common_fields p url mt rows :
  _build_rows_from_product p url mt = Some rows ->
  forall r, In r rows ->
    (exists raw, product_name p = JStr raw /\ Product r = strip raw /\ strip raw <> EmptyString) /\
    Menu_Type r = mt /\ Category r = product_category p /\ Brand r = product_brand p /\
    Source r = "Dutchie GraphQL" /\ Source_URL r = url.
Proof.
  unfold _build_rows_from_product.
  destruct (product_name p) as [| | |raw| |] eqn:Hn; try (intros [=<-] r []).
  destruct (String.eqb (strip raw) EmptyString) eqn:Hs; [intros [=<-] r []|].
  cbv zeta.
  destruct (_extract_cannabinoid p "THC") as [thc|]; [|discriminate].
  destruct (_extract_cannabinoid p "CBD") as [cbd|]; [|discriminate].
  assert (Hraw : exists raw', JStr raw = JStr raw' /\ strip raw = strip raw' /\ strip raw' <> EmptyString)
    by (exists raw; split; [reflexivity|split; [reflexivity|apply strip_nonempty_string; exact Hs]]).
  destruct (variants_of p) as [| | | | [|v vs] |]; intros E r Hin;
    try (injection E as <-; destruct Hin as [<-|[]]; cbn;
         destruct Hraw as (raw' & E1 & E2 & E3);
         split; [exists raw'; auto|repeat split]).
  injection E as <-.
  apply (variant_rows_fields _ _ _ _ _ _ _ _ (v :: vs)) in Hin as (-> & -> & -> & -> & -> & ->).
  destruct Hraw as (raw' & E1 & E2 & E3).
  split; [exists raw'; auto|repeat split].
Qed.

(** [_build_rows_from_product] returns no row exactly when the name is not
    a string or strips to nothing, or when the product has variants and
    none passes the stock filter; a product without variants gives at most
    one row, with no size and the product-level price. *)
Theorem build_rows_empty_or_single p url mt rows :
  _build_rows_from_product p url mt = Some rows ->
  (rows = [] <->
     (forall raw, product_name p = JStr raw -> strip raw = EmptyString) \/
     (exists vs, variants_of p = JArr vs /\ vs <> [] /\ filter variant_passes vs = [])) /\
  ((forall vs, variants_of p = JArr vs -> vs = []) ->
     rows = [] \/ exists r, rows = [r] /\ Size r = None /\ Price r = product_level_price p).
Proof.
  unfold _build_rows_from_product.
  destruct (product_name p) as [| | |raw| |] eqn:Hn;
    try (intros [=<-]; split; [split; [intros _; left; intros raw E; discriminate E|reflexivity]|
                              intros _; left; reflexivity]).
  destruct (String.eqb (strip raw) EmptyString) eqn:Hs.
  { intros [=<-]. split; [split; [intros _; left; intros raw' [=<-]; apply String.eqb_eq; exact Hs|reflexivity]|].
    intros _; left; reflexivity. }
  cbv zeta.
  destruct (_extract_cannabinoid p "THC") as [thc|]; [|discriminate].
  destruct (_extract_cannabinoid p "CBD") as [cbd|]; [|discriminate].
  assert (Hname : ~ forall raw', JStr raw = JStr raw' -> strip raw' = EmptyString).
  { intros H. specialize (H raw eq_refl). rewrite H in Hs. discriminate Hs. }
  destruct (variants_of p) as [| | | | [|v vs] |] eqn:Hv; intros E;
    try (injection E as <-; split;
         [split; [discriminate|intros [H|(vs' & Hvs & H1 & H2)];
                               [exfalso; exact (Hname H)|congruence]]
         |intros _; right; eexists; split; [reflexivity|split; reflexivity]]).
  - assert (E' : rows = variant_rows (strip raw) mt (product_category p) (product_brand p)
                          thc cbd (product_id_of p) url (v :: vs)) by congruence.
    clear E. split.
    + rewrite E', variant_rows_spec. split.
      * intros H. right. exists (v :: vs). split; [reflexivity|split; [discriminate|]].
        apply map_eq_nil in H. exact H.
      * intros [H|(vs' & [=<-] & _ & H2)]; [exfalso; exact (Hname H)|].
        rewrite H2. reflexivity.
    + intros H. specialize (H (v :: vs) eq_refl). discriminate H.
Qed.

Lemma set_count_frame k v st :
  let st' := snd (set_count k v st) in
  captured st' = captured st /\ seen_keys st' = seen_keys st /\ all_rows st' = all_rows st /\
  nav_log st' = nav_log st /\ per_page_counts st' = assoc_set k v (per_page_counts st).
Proof. repeat split. Qed.

Lemma cat_loop_nav url mt net cat fuel : forall pg prev st,
  exists k, k <= fuel /\ (0 < fuel -> 0 < k) /\
    nav_log (snd (cat_loop url mt net cat fuel pg prev st)) =
    nav_log st ++ map (fun i => (cat, i)) (seq pg k).
Proof.
  induction fuel as [|f IH]; intros pg prev st.
  { exists 0. split; [lia|split; [lia|]]. cbn. rewrite app_nil_r. reflexivity. }
  rewrite cat_loop_step.
  assert (One : forall st', nav_log st' = nav_log st ++ [(cat, pg)] ->
             exists k, k <= S f /\ (0 < S f -> 0 < k) /\
               nav_log st' = nav_log st ++ map (fun i => (cat, i)) (seq pg k))
    by (intros st' H; exists 1; split; [lia|split; [lia|exact H]]).
  destruct (net cat pg) as [resps|]; [|apply One; reflexivity].
  cbv zeta.
  destruct (payloads_rows url mt (capture_all resps)) as [[|r rs]|]; [apply One; reflexivity| |apply One; reflexivity].
  destruct (page_signature (r :: rs)) as [sig|]; [|apply One; reflexivity].
  destruct (sig_in sig prev); [apply One; reflexivity|].
  pose proof (dedup_loop_frame (r :: rs) 0 (st_cap (capture_all resps) (st_log cat pg st)))
    as (_ & _ & Hnav).
  unfold _dedup_and_add.
  destruct (dedup_loop (r :: rs) 0 (st_cap (capture_all resps) (st_log cat pg st)))
    as [[added|] st3]; cbn [snd] in Hnav; [|apply One; exact Hnav].
  destruct (IH (S pg) (sig :: prev) (snd (set_count (page_key cat pg) added st3)))
    as (k & Hk & _ & Hlog).
  exists (S k). split; [lia|split; [lia|]].
  rewrite Hlog. cbn [snd set_count nav_log]. rewrite Hnav. cbn [seq map].
  cbn [st_cap st_log nav_log]. rewrite <- app_assoc. reflexivity.
Qed.

(** The category loop visits the categories in order, every one of them
    when the loop completes without an exception (a prefix of them when a
    page raises), each on pages [1, 2, ..., k] with [1 <= k <= max_pages]
    (no page when [max_pages] is 0), and the navigation log grows by
    exactly these (category, page) pairs. *)
Theorem crawl_categories_page_visits url mt net max_pages cats st :
  exists ks, List.length ks <= List.length cats /\
    (fst (crawl_categories url mt net max_pages cats st) = Some tt ->
       List.length ks = List.length cats) /\
    (forall k, In k ks -> 0 < k <= max_pages \/ (k = 0 /\ max_pages = 0)) /\
    nav_log (snd (crawl_categories url mt net max_pages cats st)) =
    nav_log st ++ List.concat (map (fun ck => map (fun i => (fst ck, i)) (seq 1 (snd ck)))
                              (combine cats ks)).
Proof.
  revert st. induction cats as [|c cs IH]; intros st.
  { exists []. split; [reflexivity|split; [reflexivity|split; [intros k []|]]]. cbn. rewrite app_nil_r. reflexivity. }
  cbn [crawl_categories]. unfold bind, crawl_category.
  destruct (cat_loop_nav url mt net c max_pages 1 [] st) as (k & Hk & Hpos & Hlog).
  destruct (cat_loop url mt net c max_pages 1 [] st) as [[[]|] st1] eqn:E; cbn [snd] in Hlog.
  - destruct (IH st1) as (ks & Hlen & Hall & Hks & Hlog').
    exists (k :: ks). split; [cbn; lia|split; [intros Hok; cbn; rewrite (Hall Hok); reflexivity|split]].
    + intros k' [<-|Hin]; [|apply Hks, Hin]. destruct max_pages; [right; lia|left; lia].
    + rewrite Hlog', Hlog. cbn [combine map List.concat fst snd]. rewrite app_assoc. reflexivity.
  - exists [k]. split; [cbn; lia|split; [cbn [fst]; discriminate|split]].
    + intros k' [<-|[]]. destruct max_pages; [right; lia|left; lia].
    + cbn [snd]. rewrite Hlog. destruct cs; cbn [combine map List.concat fst snd]; rewrite ?app_nil_r; reflexivity.
Qed.

(** ** Decimal rendering and page keys *)

Definition is_digit (c : ascii) : bool :=
  (48 <=? nat_of_ascii c) && (nat_of_ascii c <=? 57).

Fixpoint all_digits (s : string) : bool :=
  match s with
  | EmptyString => true
  | String c r => is_digit c && all_digits r
  end.

(** The value of a decimal digit string, read left to right from [v]. *)
Fixpoint dec_val (s : string) (v : N) : N :=
  match s with
  | EmptyString => v
  | String c r => dec_val r (v * 10 + (N_of_ascii c - 48))
  end.

Lemma digits_N_app f : forall n acc, digits_N f n acc = (digits_N f n EmptyString ++ acc)%string.
Proof.
  induction f as [|f IH]; intros n acc; [reflexivity|].
  cbn [digits_N]. destruct (N.eqb (N.div n 10) 0); [reflexivity|].
  rewrite IH, (IH (N.div n 10) (String _ EmptyString)).
  generalize (digits_N f (N.div n 10) EmptyString). intros s.
  induction s as [|c r IHs]; [reflexivity|]. cbn [append]. f_equal. exact IHs.
Qed.

Lemma dec_val_app s t v : dec_val (s ++ t) v = dec_val t (dec_val s v).
Proof. revert v; induction s as [|c r IH]; intros v; [reflexivity|]. apply IH. Qed.

Lemma digit_char_N k : (k < 10)%N -> N_of_ascii (ascii_of_N (48 + k)) = (48 + k)%N.
Proof.
  intros Hk. apply N_ascii_embedding. lia.
Qed.

Lemma digit_char_is_digit k : (k < 10)%N -> is_digit (ascii_of_N (48 + k)) = true.
Proof.
  intros Hk. unfold is_digit, nat_of_ascii. rewrite digit_char_N by exact Hk.
  apply andb_true_iff. split; apply Nat.leb_le; lia.
Qed.

Lemma digits_N_spec g : forall n, (n < 10 ^ N.of_nat g)%N -> 1 <= g ->
  dec_val (digits_N g n EmptyString) 0 = n /\ all_digits (digits_N g n EmptyString) = true.
Proof.
  induction g as [|f IH]; intros n Hn Hg; [lia|].
  assert (Hm : (n mod 10 < 10)%N) by (apply N.mod_lt; lia).
  cbn [digits_N].
  destruct (N.eqb (N.div n 10) 0) eqn:E.
  - apply N.eqb_eq in E. cbn [dec_val all_digits].
    rewrite digit_char_N, digit_char_is_digit by exact Hm.
    split; [|reflexivity].
    pose proof (N.div_mod n 10 ltac:(lia)) as Hdm.
    set (q := (n / 10)%N) in *. set (r := (n mod 10)%N) in *. clearbody q r. lia.
  - apply N.eqb_neq in E.
    assert (Hf : 1 <= f).
    { destruct f; [|lia]. exfalso. apply E. apply N.div_small. cbn in Hn. lia. }
    assert (Hd : (N.div n 10 < 10 ^ N.of_nat f)%N).
    { rewrite Nat2N.inj_succ, N.pow_succ_r' in Hn. apply N.Div0.div_lt_upper_bound; lia. }
    destruct (IH (N.div n 10) Hd Hf) as [IH1 IH2].
    rewrite digits_N_app, dec_val_app, IH1.
    split.
    + cbn [dec_val]. rewrite digit_char_N by exact Hm. pose proof (N.div_mod n 10 ltac:(lia)) as Hdm.
      set (q := (n / 10)%N) in *. set (r := (n mod 10)%N) in *. clearbody q r. lia.
    + revert IH2. generalize (digits_N f (N.div n 10) EmptyString). intros s Hs.
      induction s as [|c r IHs]; cbn [append all_digits] in *.
      * rewrite digit_char_is_digit by exact Hm. reflexivity.
      * apply andb_true_iff in Hs as [H1 H2]. rewrite H1, (IHs H2). reflexivity.
Qed.

Lemma pos_size_nat_bound p : Pos.to_nat p < 2 ^ Pos.size_nat p.
Proof.
  induction p as [p IH|p IH|]; cbn [Pos.size_nat]; rewrite ?Pos2Nat.inj_xI, ?Pos2Nat.inj_xO;
    cbn [Nat.pow]; [lia|lia|cbn; lia].
Qed.

Lemma N_size_bound n : (n < 10 ^ N.of_nat (S (N.size_nat n)))%N.
Proof.
  destruct n as [|p]; [cbn; lia|].
  cbn [N.size_nat]. pose proof (pos_size_nat_bound p) as H.
  assert (H2 : forall k, 2 ^ k <= 10 ^ k) by (intros k; apply Nat.pow_le_mono_l; lia).
  specialize (H2 (Pos.size_nat p)).
  apply N.lt_le_trans with (m := N.of_nat (10 ^ S (Pos.size_nat p))).
  - assert (Pos.to_nat p < 10 ^ S (Pos.size_nat p)) by (cbn [Nat.pow]; lia). lia.
  - rewrite Nat2N.inj_pow. apply N.le_refl.
Qed.

Lemma nat_to_string_spec n :
  dec_val (nat_to_string n) 0 = N.of_nat n /\ all_digits (nat_to_string n) = true.
Proof.
  unfold nat_to_string, N_to_string. apply digits_N_spec; [apply N_size_bound|lia].
Qed.

Lemma nat_to_string_inj m n : nat_to_string m = nat_to_string n -> m = n.
Proof.
  intros H. pose proof (proj1 (nat_to_string_spec m)) as Hm.
  pose proof (proj1 (nat_to_string_spec n)) as Hn. rewrite H in Hm. lia.
Qed.

Lemma str_app_assoc (a b c : string) : ((a ++ b) ++ c = a ++ (b ++ c))%string.
Proof. induction a as [|x r IH]; [reflexivity|]. cbn [append]. f_equal. exact IH. Qed.

Lemma all_digits_app_inv s t : all_digits (s ++ t) = true -> all_digits t = true.
Proof.
  induction s as [|c r IH]; [auto|]. cbn [append all_digits].
  intros H. apply andb_true_iff in H as [_ H]. auto.
Qed.

Lemma digit_suffix_split e : is_digit e = false -> forall s s' t t',
  all_digits t = true -> all_digits t' = true ->
  (s ++ String e t = s' ++ String e t')%string -> s = s' /\ t = t'.
Proof.
  intros He s. induction s as [|c r IH]; intros s' t t' Ht Ht' Heq; destruct s' as [|c' r'];
    cbn [append] in Heq.
  - injection Heq as ->. auto.
  - injection Heq as <- Ht2. subst t. apply all_digits_app_inv in Ht.
    cbn [all_digits] in Ht. rewrite He in Ht. discriminate.
  - injection Heq as -> Ht2. subst t'. apply all_digits_app_inv in Ht'.
    cbn [all_digits] in Ht'. rewrite He in Ht'. discriminate.
  - injection Heq as <- Heq. destruct (IH r' t t' Ht Ht' Heq) as [-> ->]. auto.
Qed.

Lemma str_app_cancel_r u : forall s s', (s ++ u = s' ++ u)%string -> s = s'.
Proof.
  intros s s' H.
  assert (Hl : forall a b : string, list_ascii_of_string (a ++ b) =
                 (list_ascii_of_string a ++ list_ascii_of_string b)%list).
  { intros a b. induction a as [|c r IH]; [reflexivity|]. cbn. f_equal. exact IH. }
  apply (f_equal list_ascii_of_string) in H. rewrite !Hl in H.
  apply app_inv_tail in H.
  rewrite <- (string_of_list_ascii_of_string s), <- (string_of_list_ascii_of_string s'), H.
  reflexivity.
Qed.

Lemma page_key_inj c p c' p' :
  page_key c p = page_key c' p' -> c = c' /\ p = p'.
Proof.
  unfold page_key. intros H.
  change ("_page" ++ nat_to_string p)%string with ("_pag" ++ String "e" (nat_to_string p))%string in H.
  change ("_page" ++ nat_to_string p')%string with ("_pag" ++ String "e" (nat_to_string p'))%string in H.
  rewrite <- !str_app_assoc in H.
  apply (digit_suffix_split "e" eq_refl) in H;
    [|apply nat_to_string_spec|apply nat_to_string_spec].
  destruct H as [H1 H2]. split; [exact (str_app_cancel_r _ _ _ H1)|exact (nat_to_string_inj _ _ H2)].
Qed.

(** The sum of the values of [debug_info["per_page_counts"]]. *)
Definition sum_counts (d : list (string * nat)) : nat := fold_right (fun kv acc => snd kv + acc) 0 d.

Definition counts_ok (st : St) : Prop := sum_counts (per_page_counts st) = List.length (all_rows st).

Lemma assoc_set_fresh k v d : ~ In k (map fst d) ->
  sum_counts (assoc_set k v d) = sum_counts d + v.
Proof.
  induction d as [|[k' v'] r IH]; intros Hk; cbn [assoc_set map fst] in *.
  - cbn. lia.
  - destruct (String.eqb k' k) eqn:E.
    + apply String.eqb_eq in E. exfalso. apply Hk. left. exact E.
    + cbn [sum_counts fold_right snd] in *. unfold sum_counts in IH.
      cbn [fold_right snd]. rewrite IH by (intros H; apply Hk; right; exact H). lia.
Qed.

Lemma assoc_set_keys k v d k0 : In k0 (map fst (assoc_set k v d)) -> k0 = k \/ In k0 (map fst d).
Proof.
  induction d as [|[k' v'] r IH]; cbn [assoc_set map fst].
  - intros [H|[]]. auto.
  - destruct (String.eqb k' k); cbn [map fst In].
    + intros [H|H]; auto.
    + intros [H|H]; [auto|]. destruct (IH H); auto.
Qed.

Lemma dedup_loop_count rows : forall added st n st',
  dedup_loop rows added st = (Some n, st') ->
  List.length (all_rows st') + added = List.length (all_rows st) + n /\
  per_page_counts st' = per_page_counts st.
Proof.
  induction rows as [|r rs IH]; intros added st n st' H; cbn [dedup_loop] in H.
  - unfold ret in H. injection H as <- <-. auto.
  - cbv zeta in H. destruct (key_hashable (row_key r)); cbn [negb] in H; [|discriminate].
    destruct (key_mem (row_key r) (seen_keys st)).
    + apply IH in H. exact H.
    + apply IH in H. cbn [all_rows per_page_counts] in H. rewrite length_app in H.
      cbn [List.length] in H. destruct H. split; [lia|assumption].
Qed.

Lemma set_count_ok k v st :
  ~ In k (map fst (per_page_counts st)) ->
  sum_counts (per_page_counts st) + v = List.length (all_rows st) ->
  counts_ok (snd (set_count k v st)) /\
  (forall k0, In k0 (map fst (per_page_counts (snd (set_count k v st)))) ->
     k0 = k \/ In k0 (map fst (per_page_counts st))).
Proof.
  intros Hk Hs. unfold counts_ok, set_count. cbn [snd per_page_counts all_rows].
  split; [rewrite assoc_set_fresh by exact Hk; exact Hs|apply assoc_set_keys].
Qed.

Lemma cat_loop_counts url mt net cat fuel : forall pg prev st st',
  cat_loop url mt net cat fuel pg prev st = (Some tt, st') ->
  counts_ok st ->
  (forall p, pg <= p -> ~ In (page_key cat p) (map fst (per_page_counts st))) ->
  counts_ok st' /\
  (forall k, In k (map fst (per_page_counts st')) ->
     In k (map fst (per_page_counts st)) \/ exists p, pg <= p /\ k = page_key cat p).
Proof.
  induction fuel as [|f IH]; intros pg prev st st' H Hok Hfr.
  - cbn in H. injection H as <-. auto.
  - rewrite cat_loop_step in H.
    destruct (net cat pg) as [resps|]; [|discriminate].
    cbv zeta in H.
    set (st2 := st_cap (capture_all resps) (st_log cat pg st)) in H.
    assert (E2 : per_page_counts st2 = per_page_counts st /\ all_rows st2 = all_rows st)
      by (split; reflexivity).
    assert (Hzero : set_count (page_key cat pg) 0 st2 = (Some tt, st') ->
      counts_ok st' /\
      (forall k, In k (map fst (per_page_counts st')) ->
         In k (map fst (per_page_counts st)) \/ exists p, pg <= p /\ k = page_key cat p)).
    { intros Hs. destruct E2 as [E2a E2b].
      destruct (set_count_ok (page_key cat pg) 0 st2) as [Ha Hb].
      - rewrite E2a. apply Hfr. lia.
      - rewrite E2a, E2b. unfold counts_ok in Hok. lia.
      - rewrite Hs in Ha, Hb. cbn [snd] in Ha, Hb. split; [exact Ha|].
        intros k Hk. destruct (Hb k Hk) as [->|Hin].
        + right. exists pg. auto.
        + left. rewrite <- E2a. exact Hin. }
    destruct (payloads_rows url mt (capture_all resps)) as [[|r rs]|]; [exact (Hzero H)| |discriminate].
    destruct (page_signature (r :: rs)) as [sig|]; [|discriminate].
    destruct (sig_in sig prev); [exact (Hzero H)|].
    destruct (_dedup_and_add (r :: rs) st2) as [[added|] st3] eqn:Ed; [|discriminate].
    unfold _dedup_and_add in Ed. apply dedup_loop_count in Ed as [Ed1 Ed2].
    destruct E2 as [E2a E2b].
    destruct (set_count_ok (page_key cat pg) added st3) as [Ha Hb].
    + rewrite Ed2, E2a. apply Hfr. lia.
    + rewrite Ed2, E2a. unfold counts_ok in Hok. rewrite E2b in Ed1. lia.
    + apply IH in H as [H1 H2]; [|exact Ha|].
      * split; [exact H1|]. intros k Hk. destruct (H2 k Hk) as [Hin|[p [Hp ->]]].
        -- destruct (Hb k Hin) as [->|Hin'].
           ++ right. exists pg. auto.
           ++ left. rewrite Ed2, E2a in Hin'. exact Hin'.
        -- right. exists p. split; [lia|reflexivity].
      * intros p Hp Hin. destruct (Hb _ Hin) as [Heq|Hin'].
        -- apply page_key_inj in Heq as [_ Heq]. lia.
        -- rewrite Ed2, E2a in Hin'. exact (Hfr p ltac:(lia) Hin').
Qed.

Lemma crawl_categories_counts url mt net mp cats : forall st st',
  crawl_categories url mt net mp cats st = (Some tt, st') -> NoDup cats -> counts_ok st ->
  (forall c p, In c cats -> ~ In (page_key c p) (map fst (per_page_counts st))) ->
  counts_ok st'.
Proof.
  induction cats as [|c cs IH]; intros st st' H Hnd Hok Hfr; cbn [crawl_categories] in H.
  - injection H as <-. exact Hok.
  - unfold bind, crawl_category in H.
    destruct (cat_loop url mt net c mp 1 [] st) as [[[]|] st1] eqn:E; [|discriminate].
    apply NoDup_cons_iff in Hnd as [Hc Hnd].
    destruct (cat_loop_counts url mt net c mp 1 [] st st1 E Hok
                (fun p _ => Hfr c p (or_introl eq_refl))) as [Hok1 Hk1].
    apply (IH st1 st' H Hnd Hok1).
    intros c' p Hc' Hin. destruct (Hk1 _ Hin) as [Hin0|[p0 [_ Heq]]].
    + exact (Hfr c' p (or_intror Hc') Hin0).
    + apply page_key_inj in Heq as [-> _]. exact (Hc Hc').
Qed.

Lemma initial_pass_count url mt caps : forall count st n st',
  initial_pass url mt caps count st = (Some n, st') ->
  List.length (all_rows st') + count = List.length (all_rows st) + n /\
  per_page_counts st' = per_page_counts st.
Proof.
  induction caps as [|p ps IH]; intros count st n st' H; cbn [initial_pass] in H.
  - unfold ret in H. injection H as <- <-. auto.
  - unfold bind, lift in H.
    destruct (payloads_rows url mt [p]) as [rows|]; [|discriminate].
    destruct (_dedup_and_add rows st) as [[added|] st1] eqn:Ed; [|discriminate].
    unfold _dedup_and_add in Ed. apply dedup_loop_count in Ed as [Ed1 Ed2].
    apply IH in H as [H1 H2]. split; [lia|congruence].
Qed.

(** A vendor whose every category serves a product of its own and a
    product shared by all categories on page 1, the shared product alone
    on page 2, and nothing from page 3 on. *)
Definition counts_net (cat : string) (pg : nat) : option (list response) :=
  match pg with
  | 1 => Some [menu_response [simple_product (cat ++ " Kush") 30; simple_product "Shared" 20]]
  | 2 => Some [menu_response [simple_product "Shared" 20]]
  | _ => Some []
  end.

(** [debug_info["per_page_counts"]] accounts for every row: when the crawl
    of a list of distinct categories (or the initial pass, when none was
    discovered) completes without an exception, the per-page counts add up
    to the number of rows collected. *)
Theorem crawl_session_counts_sum url mt net max_pages initial cats st :
  NoDup cats ->
  crawl_session url mt net max_pages initial cats empty_st = (Some tt, st) ->
  sum_counts (per_page_counts st) = List.length (all_rows st).
Proof.
  intros Hnd H. unfold crawl_session, bind, lift, add_captures in H.
  destruct initial as [resps|]; [|discriminate].
  set (st1 := mkSt (captured empty_st ++ capture_all resps) (seen_keys empty_st)
                (all_rows empty_st) (per_page_counts empty_st) (nav_log empty_st)) in H.
  destruct cats as [|c cs].
  - unfold get_st in H.
    destruct (initial_pass url mt (captured st1) 0 st1) as [[n|] st2] eqn:Ei; [|discriminate].
    apply initial_pass_count in Ei as [E1 E2].
    unfold set_count in H. injection H as <-. cbn [per_page_counts all_rows].
    rewrite E2. cbn. cbn in E1. lia.
  - apply (crawl_categories_counts url mt net max_pages (c :: cs) st1 st H Hnd).
    + reflexivity.
    + intros c' p _ [].
Qed.

Lemma crawl_session_counts_sum_witness :
  NoDup ["Flower"; "Vape"] /\
  crawl_session "https://shop/menu" None counts_net 5 (Some []) ["Flower"; "Vape"] empty_st =
    (Some tt, snd (crawl_session "https://shop/menu" None counts_net 5 (Some [])
                     ["Flower"; "Vape"] empty_st)) /\
  let st := snd (crawl_session "https://shop/menu" None counts_net 5 (Some [])
                   ["Flower"; "Vape"] empty_st) in
  sum_counts (per_page_counts st) = List.length (all_rows st).
Proof.
  assert (Hnd : NoDup ["Flower"; "Vape"]).
  { constructor; [intros [H|[]]; discriminate|constructor; [intros []|constructor]]. }
  assert (Hs : crawl_session "https://shop/menu" None counts_net 5 (Some []) ["Flower"; "Vape"] empty_st =
    (Some tt, snd (crawl_session "https://shop/menu" None counts_net 5 (Some [])
                     ["Flower"; "Vape"] empty_st))) by (vm_compute; reflexivity).
  split; [exact Hnd|]. split; [exact Hs|].
  exact (crawl_session_counts_sum "https://shop/menu" None counts_net 5 (Some [])
           ["Flower"; "Vape"] _ Hnd Hs).
Defined.

Example counts_net_table :
  let st := snd (crawl_session "https://shop/menu" None counts_net 5 (Some [])
                   ["Flower"; "Vape"] empty_st) in
  List.length (all_rows st) = 3 /\
  per_page_counts st = [("Flower_page1", 2); ("Flower_page2", 0); ("Flower_page3", 0);
                         ("Vape_page1", 1); ("Vape_page2", 0); ("Vape_page3", 0)].
Proof. vm_compute. split; reflexivity. Qed.

(** A product with a nested category, one variant in stock and one out. *)
Definition demo_product : json :=
  JObj [("name", JStr "  Runtz "); ("category", JObj [("name", JStr "Flower")]);
        ("brand", JStr "Acme");
        ("variants", JArr [JObj [("id", JStr "v1"); ("price", JNum 30); ("size", JStr "3.5g")];
                           JObj [("id", JStr "v2"); ("price", JNum 55); ("inStock", JBool false)]])].

Lemma build_rows_common_fields_witness :
  exists rows, _build_rows_from_product demo_product "https://shop/menu" (Some "rec") = Some rows /\
  forall r, In r rows ->
    (exists raw, product_name demo_product = JStr raw /\ Product r = strip raw /\ strip raw <> EmptyString) /\
    Menu_Type r = Some "rec" /\ Category r = product_category demo_product /\
    Brand r = product_brand demo_product /\
    Source r = "Dutchie GraphQL" /\ Source_URL r = "https://shop/menu".
Proof.
  eexists. split; [vm_compute; reflexivity|].
  apply (build_rows_common_fields demo_product "https://shop/menu" (Some "rec")).
  vm_compute. reflexivity.
Defined.

Lemma build_rows_empty_or_single_witness :
  exists rows, _build_rows_from_product (simple_product "Gelato" 25) "https://shop/menu" None = Some rows /\
  (rows = [] <->
     (forall raw, product_name (simple_product "Gelato" 25) = JStr raw -> strip raw = EmptyString) \/
     (exists vs, variants_of (simple_product "Gelato" 25) = JArr vs /\ vs <> [] /\
                 filter variant_passes vs = [])) /\
  ((forall vs, variants_of (simple_product "Gelato" 25) = JArr vs -> vs = []) ->
     rows = [] \/ exists r, rows = [r] /\ Size r = None /\
                            Price r = product_level_price (simple_product "Gelato" 25)).
Proof.
  eexists. split; [vm_compute; reflexivity|].
  apply (build_rows_empty_or_single (simple_product "Gelato" 25) "https://shop/menu" None).
  vm_compute. reflexivity.
Defined.

(** The variant marked out of stock is dropped; the other keeps the
    product's name, stripped, and its nested category name. *)
Example demo_product_rows :
  option_map (map (fun r => (Product r, Category r, Size r)))
    (_build_rows_from_product demo_product "https://shop/menu" (Some "rec"))
  = Some [("Runtz", JStr "Flower", Some "3.5g")].
Proof. vm_compute. reflexivity. Qed.

(** U+00A0 (no-break space) is white space to [str.strip()]: a product
    named by it alone gives no row, and a trailing one is stripped. *)
Definition nbsp : string := String (ascii_of_nat 160) EmptyString.

Example build_rows_nbsp_name :
  _build_rows_from_product
    (JObj [("name", JStr nbsp); ("variants", JArr [JObj [("price", JNum 30)]])]) "u" None = Some [] /\
  option_map (map (fun r => Product r))
    (_build_rows_from_product
       (JObj [("name", JStr ("Kush" ++ nbsp)); ("variants", JArr [JObj [("price", JNum 30)]])]) "u" None)
  = Some ["Kush"].
Proof. split; vm_compute; reflexivity. Qed.

(** ** Category page URLs: [_page_url] (lines 365-376) *)

(** [urllib.parse.quote(s, safe='')]: the text is encoded to UTF-8 (a
    character of code point [n < 256] stands for itself) and every byte
    outside [_ALWAYS_SAFE] (ASCII letters, digits and [_.-~]) becomes [%XX]
    with upper-case hex digits. *)
Definition quote_safe (c : ascii) : bool :=
  let n := nat_of_ascii c in
  ((65 <=? n) && (n <=? 90)) || ((97 <=? n) && (n <=? 122)) || ((48 <=? n) && (n <=? 57)) ||
  (n =? 95) || (n =? 46) || (n =? 45) || (n =? 126).

Definition hex_digit (n : nat) : ascii := ascii_of_nat (if n <? 10 then 48 + n else 55 + n).

Definition pct_byte (b : nat) : string :=
  String "%" (String (hex_digit (b / 16)) (String (hex_digit (b mod 16)) EmptyString)).

Definition quote_char (c : ascii) : string :=
  if quote_safe c then String c EmptyString
  else
    let n := nat_of_ascii c in
    if n <? 128 then pct_byte n
    else (pct_byte (192 + n / 64) ++ pct_byte (128 + n mod 64))%string.

Fixpoint quote (s : string) : string :=
  match s with
  | EmptyString => EmptyString
  | String c r => (quote_char c ++ quote r)%string
  end.

(** [base_url.split("?")[0]] *)
Fixpoint split_q (s : string) : string :=
  match s with
  | EmptyString => EmptyString
  | String c r => if Ascii.eqb c "?" then EmptyString else String c (split_q r)
  end.

(** [category] is [None] or a string (falsy when empty); [page] is an
    int, [f"{page}"] its decimal rendering. *)
Definition _page_url (base_url : string) (category : option string) (page : nat) : string :=
  let base := split_q base_url in
  let params :=
    (match category with
     | Some c => if String.eqb c EmptyString then [] else [("dtche%5Bcategory%5D=" ++ quote c)%string]
     | None => []
     end ++
     (if 1 <? page then [("dtche%5Bpage%5D=" ++ nat_to_string page)%string] else []))%list in
  match params with
  | [] => base
  | _ => (base ++ "?" ++ String.concat "&" params)%string
  end.

(** ** [_discover_categories] (lines 379-416) *)

(** [[^&"'\s]] (link pass) and [[^&"'\s<>]] (HTML pass). *)
Definition link_cat_char (c : ascii) : bool :=
  let n := nat_of_ascii c in
  negb ((n =? 38) || (n =? 34) || (n =? 39) || is_space c).

Definition html_cat_char (c : ascii) : bool :=
  let n := nat_of_ascii c in
  link_cat_char c && negb ((n =? 60) || (n =? 62)).

(** A literal matched under [re.I]; [p] is written in lower case. *)
Fixpoint ci_prefix (p s : string) : option string :=
  match p with
  | EmptyString => Some s
  | String pc pr =>
      match s with
      | EmptyString => None
      | String c r => if Ascii.eqb (char_lower c) pc then ci_prefix pr r else None
      end
  end.

Fixpoint take_while (f : ascii -> bool) (s : string) : string * string :=
  match s with
  | EmptyString => (EmptyString, EmptyString)
  | String c r =>
      if f c then let (a, b) := take_while f r in (String c a, b) else (EmptyString, s)
  end.

Definition alt (o1 o2 : option string) : option string :=
  match o1 with Some r => Some r | None => o2 end.

Definition obind (o : option string) (f : string -> option string) : option string :=
  match o with Some r => f r | None => None end.

(** [dtche(?:%5B|\[)category(?:%5D|\])=([allowed]+)] matched at the start
    of [s]: group 1 (the greedy run) and the rest of the text after it. *)
Definition cat_match (allowed : ascii -> bool) (s : string) : option (string * string) :=
  match obind (obind (obind (obind (ci_prefix "dtche" s)
                  (fun r => alt (ci_prefix "%5b" r) (ci_prefix "[" r)))
                  (ci_prefix "category"))
                  (fun r => alt (ci_prefix "%5d" r) (ci_prefix "]" r)))
                  (ci_prefix "=") with
  | None => None
  | Some r =>
      match take_while allowed r with
      | (EmptyString, _) => None
      | (g, rest) => Some (g, rest)
      end
  end.

(** [re.search]: the first position where the pattern matches. *)
Fixpoint re_search (allowed : ascii -> bool) (s : string) : option string :=
  match s with
  | EmptyString => None
  | String _ r =>
      match cat_match allowed s with
      | Some (g, _) => Some g
      | None => re_search allowed r
      end
  end.

(** [re.finditer]: non-overlapping matches left to right; [skip] counts the
    characters of the last match still to be passed over. *)
Fixpoint finditer_from (allowed : ascii -> bool) (skip : nat) (s : string) : list string :=
  match s with
  | EmptyString => []
  | String _ r =>
      match skip with
      | S k => finditer_from allowed k r
      | O =>
          match cat_match allowed s with
          | Some (g, rest) => g :: finditer_from allowed (String.length s - String.length rest - 1) r
          | None => finditer_from allowed 0 r
          end
      end
  end.

Definition re_finditer (allowed : ascii -> bool) (s : string) : list string :=
  finditer_from allowed 0 s.

(** [re.sub(r"%20", " ", g)]: left to right, each [%20] becomes a space. *)
Fixpoint sub_pct20 (s : string) : string :=
  match s with
  | EmptyString => EmptyString
  | String a r1 =>
      match r1 with
      | String b (String c r) =>
          if Ascii.eqb a "%" && Ascii.eqb b "2" && Ascii.eqb c "0"
          then String " " (sub_pct20 r)
          else String a (sub_pct20 r1)
      | _ => String a (sub_pct20 r1)
      end
  end.

(** One match: [cat = re.sub(...).strip(); if cat and cat not in seen:
    categories.append(cat); seen.add(cat)]; the accumulator is
    [(categories, seen)]. *)
Definition add_match (acc : list string * list string) (g : string) : list string * list string :=
  let cat := strip (sub_pct20 g) in
  if negb (String.eqb cat EmptyString) && negb (existsb (String.eqb cat) (snd acc))
  then (fst acc ++ [cat], cat :: snd acc)%list
  else acc.

(** The link loop; a link is [None] when [get_attribute] raises (the
    [except] leaves the loop), else [Some href] with [href] the attribute
    or [None]. *)
Fixpoint link_pass (links : list (option (option string))) (acc : list string * list string)
    : list string * list string :=
  match links with
  | [] => acc
  | None :: _ => acc
  | Some h :: r =>
      let href := match h with Some s => s | None => EmptyString end in
      let acc' := match re_search link_cat_char href with
                  | Some g => add_match acc g
                  | None => acc
                  end in
      link_pass r acc'
  end.

(** [links] is [None] when [query_selector_all] raises, [html] is [None]
    when [page.content()] raises. *)
Definition _discover_categories (links : option (list (option (option string))))
    (html : option string) : list string :=
  let acc1 := match links with
              | Some ls => link_pass ls ([], [])
              | None => ([], [])
              end in
  let acc2 := match html with
              | Some h => fold_left add_match (re_finditer html_cat_char h) acc1
              | None => acc1
              end in
  fst acc2.

(** * Properties *)

Lemma split_q_idem s : split_q (split_q s) = split_q s.
Proof.
  induction s as [|c r IH]; [reflexivity|]. cbn [split_q].
  destruct (Ascii.eqb c "?") eqn:E; [reflexivity|]. cbn [split_q]. rewrite E, IH. reflexivity.
Qed.

Lemma split_q_base_q s x : split_q (split_q s ++ String "?" x)%string = split_q s.
Proof.
  induction s as [|c r IH]; [reflexivity|]. cbn [split_q].
  destruct (Ascii.eqb c "?") eqn:E; [reflexivity|]. cbn [append split_q]. rewrite E, IH. reflexivity.
Qed.

(** [_page_url] keeps the part of [base_url] before its query string and
    replaces the query string: the URL it builds has the same base, and
    building a page URL from an already built one gives the URL built from
    the original. *)
Theorem page_url_rebuild u c p c' p' :
  split_q (_page_url u c p) = split_q u /\
  _page_url (_page_url u c p) c' p' = _page_url u c' p'.
Proof.
  assert (H : split_q (_page_url u c p) = split_q u).
  { unfold _page_url.
    match goal with |- split_q (match ?l with _ => _ end) = _ => destruct l end.
    - apply split_q_idem.
    - apply split_q_base_q. }
  split; [exact H|]. unfold _page_url at 1. rewrite H. reflexivity.
Qed.

(** ** Stripping *)

Lemma lstrip_l_in l ch : In ch (lstrip_l l) -> In ch l.
Proof. induction l as [|c r IH]; cbn; [auto|]. destruct (is_space c); cbn; intuition. Qed.

Lemma lstrip_l_idem l : lstrip_l (lstrip_l l) = lstrip_l l.
Proof.
  induction l as [|c r IH]; [reflexivity|]. cbn [lstrip_l].
  destruct (is_space c) eqn:E; [exact IH|]. cbn [lstrip_l]. rewrite E. reflexivity.
Qed.

Lemma lstrip_l_snoc a x : is_space x = false -> lstrip_l (a ++ [x]) = lstrip_l a ++ [x].
Proof.
  intros Hx. induction a as [|c r IH]; cbn [app lstrip_l].
  - rewrite Hx. reflexivity.
  - destruct (is_space c); [exact IH|reflexivity].
Qed.

Lemma lstrip_l_head l : lstrip_l l = [] \/ exists x r, lstrip_l l = x :: r /\ is_space x = false.
Proof.
  induction l as [|c r IH]; cbn [lstrip_l]; [auto|].
  destruct (is_space c) eqn:E; [exact IH|]. right. eauto.
Qed.

Lemma strip_list s :
  list_ascii_of_string (strip s) =
  rev (lstrip_l (rev (lstrip_l (list_ascii_of_string s)))).
Proof. unfold strip. apply list_ascii_of_string_of_list_ascii. Qed.

Lemma strip_idem s : strip (strip s) = strip s.
Proof.
  unfold strip at 1. rewrite strip_list.
  set (L := lstrip_l (list_ascii_of_string s)).
  assert (HL : lstrip_l L = L) by apply lstrip_l_idem.
  assert (HM : lstrip_l (rev (lstrip_l (rev L))) = rev (lstrip_l (rev L))).
  { destruct (lstrip_l_head (list_ascii_of_string s)) as [E|(x & r & E & Hx)];
      fold L in E; rewrite E; [reflexivity|].
    cbn [rev]. rewrite lstrip_l_snoc by exact Hx. rewrite rev_app_distr. cbn [rev app lstrip_l].
    rewrite Hx. reflexivity. }
  rewrite HM, rev_involutive, lstrip_l_idem.
  unfold strip. fold L. reflexivity.
Qed.

Lemma strip_in s ch :
  In ch (list_ascii_of_string (strip s)) -> In ch (list_ascii_of_string s).
Proof.
  rewrite strip_list. intros H. apply in_rev in H. apply lstrip_l_in in H.
  apply in_rev in H. apply lstrip_l_in in H. exact H.
Qed.

Lemma sub_pct20_in : forall g ch,
  In ch (list_ascii_of_string (sub_pct20 g)) -> In ch (list_ascii_of_string g) \/ ch = " "%char.
Proof.
  intros g. remember (String.length g) as n eqn:Hn. revert g Hn.
  induction n as [n IH] using lt_wf_ind. intros g Hn ch.
  destruct g as [|a r1]; [cbn; auto|].
  cbn [sub_pct20].
  destruct r1 as [|b [|c r]].
  - cbn. intuition.
  - cbn. intuition.
  - cbn [String.length] in Hn.
    destruct (Ascii.eqb a "%" && Ascii.eqb b "2" && Ascii.eqb c "0").
    + cbn [list_ascii_of_string In]. intros [H|H]; [auto|].
      destruct (IH (String.length r) ltac:(lia) r eq_refl ch H) as [H'|H']; [|auto].
      left. cbn. auto.
    + cbn [list_ascii_of_string In]. intros [H|H]; [auto|].
      destruct (IH (String.length (String b (String c r))) ltac:(cbn; lia) _ eq_refl ch H)
        as [H'|H']; [|auto]. left. cbn in *. auto.
Qed.

(** ** What a match captures *)

Lemma take_while_fst f s ch :
  In ch (list_ascii_of_string (fst (take_while f s))) -> f ch = true.
Proof.
  induction s as [|c r IH]; cbn [take_while]; [intros []|].
  destruct (f c) eqn:E; [|intros []].
  destruct (take_while f r) as [a b]. cbn in *. intros [<-|H]; auto.
Qed.

Lemma cat_match_chars allowed s g rest : cat_match allowed s = Some (g, rest) ->
  forall ch, In ch (list_ascii_of_string g) -> allowed ch = true.
Proof.
  unfold cat_match. destruct (obind _ _) as [r|]; [|discriminate].
  pose proof (take_while_fst allowed r) as Ht.
  destruct (take_while allowed r) as [[|a b] rest'] eqn:E; [discriminate|].
  intros H. injection H as <- _. exact Ht.
Qed.

Lemma re_search_chars allowed s g : re_search allowed s = Some g ->
  forall ch, In ch (list_ascii_of_string g) -> allowed ch = true.
Proof.
  induction s as [|c r IH]; cbn [re_search]; [discriminate|].
  destruct (cat_match allowed (String c r)) as [[g' rest]|] eqn:E; [|exact IH].
  intros H. injection H as <-. exact (cat_match_chars _ _ _ _ E).
Qed.

Lemma finditer_chars allowed s : forall skip g, In g (finditer_from allowed skip s) ->
  forall ch, In ch (list_ascii_of_string g) -> allowed ch = true.
Proof.
  induction s as [|c r IH]; intros skip g; cbn [finditer_from]; [intros []|].
  destruct skip as [|k]; [|apply IH].
  destruct (cat_match allowed (String c r)) as [[g' rest]|] eqn:E; [|apply IH].
  intros [<-|H]; [exact (cat_match_chars _ _ _ _ E)|exact (IH _ _ H)].
Qed.

Lemma html_cat_char_link ch : html_cat_char ch = true -> link_cat_char ch = true.
Proof. unfold html_cat_char. intros H. apply andb_true_iff in H as [H _]. exact H. Qed.

(** ** The accumulator [(categories, seen)] *)

Definition good_cat (x : string) : Prop :=
  x <> EmptyString /\ strip x = x /\
  forall ch, In ch (list_ascii_of_string x) -> link_cat_char ch = true \/ ch = " "%char.

Definition acc_inv (acc : list string * list string) : Prop :=
  NoDup (fst acc) /\ (forall x, In x (snd acc) <-> In x (fst acc)) /\ Forall good_cat (fst acc).

Lemma existsb_eqb_in x l : existsb (String.eqb x) l = true <-> In x l.
Proof.
  rewrite existsb_exists. split.
  - intros [y [Hy E]]. apply String.eqb_eq in E. subst. exact Hy.
  - intros H. exists x. split; [exact H|apply String.eqb_refl].
Qed.

Lemma add_match_inv acc g :
  (forall ch, In ch (list_ascii_of_string g) -> link_cat_char ch = true) ->
  acc_inv acc -> acc_inv (add_match acc g) /\ exists extra, fst (add_match acc g) = fst acc ++ extra.
Proof.
  intros Hg (Hnd & Hseen & Hgood). unfold add_match.
  set (cat := strip (sub_pct20 g)).
  destruct (String.eqb cat EmptyString) eqn:E1; cbn [negb andb];
    [split; [exact (conj Hnd (conj Hseen Hgood))|exists []; rewrite app_nil_r; reflexivity]|].
  destruct (existsb (String.eqb cat) (snd acc)) eqn:E2; cbn [negb andb];
    [split; [exact (conj Hnd (conj Hseen Hgood))|exists []; rewrite app_nil_r; reflexivity]|].
  assert (Hnot : ~ In cat (fst acc)).
  { intros H. apply Hseen, existsb_eqb_in in H. congruence. }
  split; [|exists [cat]; reflexivity]. unfold acc_inv. cbn [fst snd]. split; [|split].
  - apply NoDup_app; [exact Hnd|constructor; [intros []|constructor]|].
    intros x Hx [<-|[]]. exact (Hnot Hx).
  - intros x. rewrite in_app_iff. cbn [In]. rewrite Hseen. intuition.
  - apply Forall_app. split; [exact Hgood|]. constructor; [|constructor].
    split; [|split].
    + apply String.eqb_neq. exact E1.
    + apply strip_idem.
    + intros ch Hch. apply strip_in in Hch. apply sub_pct20_in in Hch as [Hch|Hch]; auto.
Qed.

Lemma link_pass_inv links : forall acc, acc_inv acc ->
  acc_inv (link_pass links acc) /\ exists extra, fst (link_pass links acc) = fst acc ++ extra.
Proof.
  induction links as [|[h|] r IH]; intros acc Hacc; cbn [link_pass];
    try (split; [exact Hacc|exists []; rewrite app_nil_r; reflexivity]).
  destruct (re_search link_cat_char _) as [g|] eqn:E.
  - destruct (add_match_inv acc g (re_search_chars _ _ _ E) Hacc) as [H1 [e1 He1]].
    destruct (IH _ H1) as [H2 [e2 He2]]. split; [exact H2|].
    exists (e1 ++ e2). rewrite He2, He1, app_assoc. reflexivity.
  - apply IH. exact Hacc.
Qed.

Lemma fold_add_match_inv gs : forall acc,
  (forall g, In g gs -> forall ch, In ch (list_ascii_of_string g) -> link_cat_char ch = true) ->
  acc_inv acc ->
  acc_inv (fold_left add_match gs acc) /\ exists extra, fst (fold_left add_match gs acc) = fst acc ++ extra.
Proof.
  induction gs as [|g r IH]; intros acc Hgs Hacc; cbn [fold_left].
  - split; [exact Hacc|exists []; rewrite app_nil_r; reflexivity].
  - destruct (add_match_inv acc g (Hgs g (or_introl eq_refl)) Hacc) as [H1 [e1 He1]].
    destruct (IH _ (fun g' Hg' => Hgs g' (or_intror Hg')) H1) as [H2 [e2 He2]].
    split; [exact H2|]. exists (e1 ++ e2). rewrite He2, He1, app_assoc. reflexivity.
Qed.

Lemma discover_inv links html :
  acc_inv (match links with Some ls => link_pass ls ([], []) | None => ([], []) end) /\
  acc_inv (match html with
           | Some h => fold_left add_match (re_finditer html_cat_char h)
                         (match links with Some ls => link_pass ls ([], []) | None => ([], []) end)
           | None => match links with Some ls => link_pass ls ([], []) | None => ([], []) end
           end) /\
  exists extra,
    fst (match html with
         | Some h => fold_left add_match (re_finditer html_cat_char h)
                       (match links with Some ls => link_pass ls ([], []) | None => ([], []) end)
         | None => match links with Some ls => link_pass ls ([], []) | None => ([], []) end
         end) =
    fst (match links with Some ls => link_pass ls ([], []) | None => ([], []) end) ++ extra.
Proof.
  assert (H0 : acc_inv ([], [])).
  { split; [constructor|split; [intros x; reflexivity|constructor]]. }
  assert (H1 : acc_inv (match links with Some ls => link_pass ls ([], []) | None => ([], []) end)).
  { destruct links as [ls|]; [apply link_pass_inv; exact H0|exact H0]. }
  split; [exact H1|].
  destruct html as [h|]; [|split; [exact H1|exists []; rewrite app_nil_r; reflexivity]].
  apply fold_add_match_inv; [|exact H1].
  intros g Hg ch Hch. apply html_cat_char_link. exact (finditer_chars _ _ _ _ Hg ch Hch).
Qed.

(** [_discover_categories] returns distinct categories, each non-empty,
    already stripped, and made of characters the capture group accepts
    ([&], quotes and white space excluded) or of spaces decoded from
    [%20], whatever the links and the page HTML, and whichever pass
    raised. *)
Theorem discover_categories_distinct_clean links html :
  let cats := _discover_categories links html in
  NoDup cats /\
  forall c, In c cats ->
    c <> EmptyString /\ strip c = c /\
    forall ch, In ch (list_ascii_of_string c) -> link_cat_char ch = true \/ ch = " "%char.
Proof.
  cbv zeta. unfold _discover_categories.
  destruct (discover_inv links html) as (_ & (Hnd & _ & Hgood) & _).
  split; [exact Hnd|]. intros c Hc. rewrite Forall_forall in Hgood. exact (Hgood c Hc).
Qed.

(** ** From a page URL back to its category *)

Lemma ci_prefix_app p : forall s x r, ci_prefix p s = Some r -> ci_prefix p (s ++ x)%string = Some (r ++ x)%string.
Proof.
  induction p as [|pc pr IH]; intros s x r H; cbn [ci_prefix] in *.
  - injection H as <-. reflexivity.
  - destruct s as [|c s']; [discriminate|]. cbn [append].
    destruct (Ascii.eqb (char_lower c) pc); [apply IH; exact H|discriminate].
Qed.

Lemma ci_prefix_app_none p c t : forall s,
  (forall pc, In pc (list_ascii_of_string p) -> Ascii.eqb (char_lower c) pc = false) ->
  ci_prefix p s = None -> ci_prefix p (s ++ String c t)%string = None.
Proof.
  induction p as [|pc pr IH]; intros s Hc H; cbn [ci_prefix] in *; [discriminate|].
  destruct s as [|c' s']; cbn [append].
  - rewrite (Hc pc (or_introl eq_refl)). reflexivity.
  - destruct (Ascii.eqb (char_lower c') pc); [|reflexivity].
    apply IH; [intros pc' Hpc'; apply Hc; right; exact Hpc'|exact H].
Qed.

Lemma ci_prefix_lower p : forall s r, ci_prefix p s = Some r -> lower s = (p ++ lower r)%string.
Proof.
  induction p as [|pc pr IH]; intros s r H; cbn [ci_prefix] in H.
  - injection H as <-. reflexivity.
  - destruct s as [|c s']; [discriminate|].
    destruct (Ascii.eqb (char_lower c) pc) eqn:E; [|discriminate].
    apply Ascii.eqb_eq in E. unfold lower in *. cbn [str_map append]. rewrite E.
    f_equal. apply IH. exact H.
Qed.

Lemma lower_app a b : lower (a ++ b) = (lower a ++ lower b)%string.
Proof. induction a as [|c r IH]; [reflexivity|]. unfold lower in *. cbn. f_equal. exact IH. Qed.

Lemma lower_length a : String.length (lower a) = String.length a.
Proof. induction a as [|c r IH]; [reflexivity|]. unfold lower in *. cbn. f_equal. exact IH. Qed.

Lemma substring_app_l a b n : substring (String.length a) n (a ++ b)%string = substring 0 n b.
Proof. induction a as [|c r IH]; [reflexivity|]. cbn. exact IH. Qed.

Lemma no_dtche_suffix u : contains (lower u) "dtche" = false ->
  forall s1 s2, u = (s1 ++ s2)%string -> ci_prefix "dtche" s2 = None.
Proof.
  unfold contains. intros Hc s1 s2 Hu.
  destruct (String.index 0 "dtche" (lower u)) eqn:E; [discriminate|].
  destruct (ci_prefix "dtche" s2) as [r|] eqn:Hp; [|reflexivity]. exfalso.
  apply (index_correct3 0 (String.length s1) "dtche" (lower u) E); [discriminate|lia|].
  rewrite Hu, lower_app, <- (lower_length s1), substring_app_l, (ci_prefix_lower _ _ _ Hp).
  cbn. destruct (lower r); reflexivity.
Qed.

Lemma split_q_decomp u : exists rest, u = (split_q u ++ rest)%string /\
  (rest = EmptyString \/ exists t, rest = String "?" t).
Proof.
  induction u as [|c r IH]; [exists EmptyString; auto|]. cbn [split_q].
  destruct (Ascii.eqb c "?") eqn:E.
  - apply Ascii.eqb_eq in E. subst c. exists (String "?" r). split; [reflexivity|eauto].
  - destruct IH as [rest [Hr Hrest]]. exists rest. split; [|exact Hrest].
    cbn [append]. rewrite <- Hr. reflexivity.
Qed.

Lemma cat_match_no_dtche f s : ci_prefix "dtche" s = None -> cat_match f s = None.
Proof. intros H. unfold cat_match. rewrite H. reflexivity. Qed.

Lemma re_search_skip f b x :
  (forall s1 s2, b = (s1 ++ s2)%string -> s2 <> EmptyString -> cat_match f (s2 ++ x)%string = None) ->
  re_search f (b ++ x)%string = re_search f x.
Proof.
  induction b as [|c r IH]; intros H; [reflexivity|].
  cbn [append re_search].
  replace (cat_match f (String c (r ++ x))) with (@None (string * string))
    by (symmetry; exact (H EmptyString (String c r) eq_refl ltac:(discriminate))).
  apply IH. intros s1 s2 Hr Hs2. apply (H (String c s1) s2); [cbn; rewrite Hr; reflexivity|exact Hs2].
Qed.

Lemma base_no_match u x : contains (lower u) "dtche" = false ->
  re_search link_cat_char (split_q u ++ String "?" x) = re_search link_cat_char x.
Proof.
  intros Hc. pose proof (no_dtche_suffix u Hc) as Hu.
  rewrite re_search_skip.
  - reflexivity.
  - intros s1 s2 Hb _. apply cat_match_no_dtche.
    destruct (split_q_decomp u) as [rest [Hr _]].
    assert (H1 : ci_prefix "dtche" s2 = None).
    { destruct (ci_prefix "dtche" s2) as [r|] eqn:E; [|reflexivity].
      apply (ci_prefix_app _ _ rest) in E.
      rewrite (Hu s1 (s2 ++ rest)%string) in E; [discriminate|].
      rewrite Hr at 1. rewrite Hb. apply str_app_assoc. }
    apply ci_prefix_app_none; [|exact H1].
    intros pc Hpc. cbn in Hpc.
    repeat destruct Hpc as [<-|Hpc]; try reflexivity. destruct Hpc.
Qed.

Definition page_tail (page : nat) : string :=
  if 1 <? page then ("&" ++ "dtche%5Bpage%5D=" ++ nat_to_string page)%string else EmptyString.

Lemma str_app_nil_r s : (s ++ EmptyString)%string = s.
Proof. induction s as [|c r IH]; [reflexivity|]. cbn. f_equal. exact IH. Qed.

Lemma page_url_cat_shape u c p : c <> EmptyString ->
  _page_url u (Some c) p =
  (split_q u ++ String "?" ("dtche%5Bcategory%5D=" ++ (quote c ++ page_tail p)))%string.
Proof.
  intros Hc. unfold _page_url, page_tail. apply String.eqb_neq in Hc. rewrite Hc.
  destruct (1 <? p); cbn [app String.concat].
  - rewrite <- (str_app_assoc _ (quote c)). reflexivity.
  - rewrite (str_app_nil_r (quote c)). reflexivity.
Qed.

Lemma cat_match_param f z :
  cat_match f ("dtche%5Bcategory%5D=" ++ z)%string =
  match take_while f z with
  | (EmptyString, _) => None
  | (g, rest) => Some (g, rest)
  end.
Proof. reflexivity. Qed.

Lemma take_while_app f q t :
  (forall ch, In ch (list_ascii_of_string q) -> f ch = true) ->
  (t = EmptyString \/ exists ch t', t = String ch t' /\ f ch = false) ->
  take_while f (q ++ t)%string = (q, t).
Proof.
  intros Hq Ht. induction q as [|c r IH]; cbn [append take_while].
  - destruct Ht as [->|(ch & t' & -> & Hf)]; [reflexivity|]. cbn. rewrite Hf. reflexivity.
  - rewrite (Hq c (or_introl eq_refl)).
    rewrite IH by (intros ch Hch; apply Hq; right; exact Hch). reflexivity.
Qed.

Lemma quote_safe_link ch : quote_safe ch = true -> link_cat_char ch = true.
Proof.
  destruct ch as [[] [] [] [] [] [] [] []]; vm_compute; intros H;
    first [reflexivity|discriminate H].
Qed.

Lemma quote_safe_not_pct ch : quote_safe ch = true -> Ascii.eqb ch "%" = false.
Proof.
  destruct ch as [[] [] [] [] [] [] [] []]; vm_compute; intros H;
    first [reflexivity|discriminate H].
Qed.

(** The category text a URL can carry unchanged through [quote] and back
    through [re.sub(r"%20", " ", ...).strip()]: not empty, already stripped,
    made of [quote]'s safe characters and spaces. *)
Definition plain_category (c : string) : Prop :=
  c <> EmptyString /\ strip c = c /\
  forall ch, In ch (list_ascii_of_string c) -> quote_safe ch = true \/ ch = " "%char.

Lemma quote_plain_chars c :
  (forall ch, In ch (list_ascii_of_string c) -> quote_safe ch = true \/ ch = " "%char) ->
  forall ch, In ch (list_ascii_of_string (quote c)) -> link_cat_char ch = true.
Proof.
  induction c as [|a r IH]; intros Hc ch; [intros []|].
  cbn [quote]. intros H.
  assert (Hl : forall x y : string, list_ascii_of_string (x ++ y) =
                 (list_ascii_of_string x ++ list_ascii_of_string y)%list).
  { intros x y. induction x as [|c0 r0 IHx]; [reflexivity|]. cbn. f_equal. exact IHx. }
  rewrite Hl in H. apply in_app_iff in H as [H|H].
  - destruct (Hc a (or_introl eq_refl)) as [Hs| ->].
    + unfold quote_char in H. rewrite Hs in H. destruct H as [<-|[]]. apply quote_safe_link, Hs.
    + vm_compute in H. repeat destruct H as [<-|H]; try reflexivity. destruct H.
  - apply IH; [intros ch' Hch'; apply Hc; right; exact Hch'|exact H].
Qed.

Lemma sub_pct20_cons a r1 : Ascii.eqb a "%" = false -> sub_pct20 (String a r1) = String a (sub_pct20 r1).
Proof.
  intros Ha. cbn [sub_pct20]. destruct r1 as [|b [|c r]]; try reflexivity.
  rewrite Ha. reflexivity.
Qed.

Lemma sub_pct20_quote c :
  (forall ch, In ch (list_ascii_of_string c) -> quote_safe ch = true \/ ch = " "%char) ->
  sub_pct20 (quote c) = c.
Proof.
  induction c as [|a r IH]; intros Hc; [reflexivity|].
  assert (Hr : sub_pct20 (quote r) = r) by (apply IH; intros ch Hch; apply Hc; right; exact Hch).
  cbn [quote]. destruct (Hc a (or_introl eq_refl)) as [Hs| ->].
  - unfold quote_char. rewrite Hs. cbn [append].
    rewrite sub_pct20_cons by (apply quote_safe_not_pct; exact Hs). rewrite Hr. reflexivity.
  - replace (quote_char " ") with "%20" by reflexivity. cbn. rewrite Hr. reflexivity.
Qed.

Lemma quote_nonempty c : c <> EmptyString -> quote c <> EmptyString.
Proof.
  destruct c as [|a r]; [congruence|]. intros _. cbn [quote]. unfold quote_char.
  destruct (quote_safe a); [discriminate|].
  destruct (nat_of_ascii a <? 128); discriminate.
Qed.

Lemma search_page_url u c p : contains (lower u) "dtche" = false -> plain_category c ->
  re_search link_cat_char (_page_url u (Some c) p) = Some (quote c).
Proof.
  intros Hu (Hne & _ & Hch).
  rewrite page_url_cat_shape by exact Hne. rewrite base_no_match by exact Hu.
  cbn [re_search].
  replace (cat_match link_cat_char (String "?" ("dtche%5Bcategory%5D=" ++ (quote c ++ page_tail p))))
    with (@None (string * string)) by reflexivity.
  assert (Hm : cat_match link_cat_char ("dtche%5Bcategory%5D=" ++ (quote c ++ page_tail p))%string
               = Some (quote c, page_tail p)).
  { rewrite cat_match_param, take_while_app.
    - destruct (quote c) eqn:E; [exact (False_ind _ (quote_nonempty c Hne E))|reflexivity].
    - apply quote_plain_chars. exact Hch.
    - unfold page_tail. destruct (1 <? p); [right; exists "&"%char; eexists; split; reflexivity|left; reflexivity]. }
  change ("dtche%5Bcategory%5D=" ++ (quote c ++ page_tail p))%string
    with (String "d" ("tche%5Bcategory%5D=" ++ (quote c ++ page_tail p))%string) in Hm |- *.
  cbn [re_search]. rewrite Hm. reflexivity.
Qed.

Lemma link_pass_round_trip u p cs : forall acc,
  contains (lower u) "dtche" = false ->
  NoDup cs -> (forall c, In c cs -> plain_category c) ->
  (forall x, In x (snd acc) <-> In x (fst acc)) ->
  (forall c, In c cs -> ~ In c (fst acc)) ->
  fst (link_pass (map (fun c => Some (Some (_page_url u (Some c) p))) cs) acc) = fst acc ++ cs.
Proof.
  induction cs as [|c cs IH]; intros acc Hu Hnd Hpl Hseen Hfresh.
  - rewrite app_nil_r. reflexivity.
  - cbn [map link_pass]. rewrite search_page_url by (exact Hu || exact (Hpl c (or_introl eq_refl))).
    destruct (Hpl c (or_introl eq_refl)) as (Hne & Hst & Hch).
    unfold add_match. rewrite sub_pct20_quote by exact Hch. rewrite Hst.
    apply String.eqb_neq in Hne. rewrite Hne.
    assert (Hn : existsb (String.eqb c) (snd acc) = false).
    { destruct (existsb (String.eqb c) (snd acc)) eqn:E; [|reflexivity].
      apply existsb_eqb_in, Hseen in E. exfalso. exact (Hfresh c (or_introl eq_refl) E). }
    rewrite Hn. cbn [negb andb].
    apply NoDup_cons_iff in Hnd as [Hc Hnd].
    rewrite (IH (fst acc ++ [c], c :: snd acc)); cbn [fst snd].
    + rewrite <- app_assoc. reflexivity.
    + exact Hu.
    + exact Hnd.
    + intros c' Hc'. apply Hpl. right. exact Hc'.
    + intros x. rewrite in_app_iff. cbn [In]. rewrite Hseen. intuition.
    + intros c' Hc' Hin. apply in_app_iff in Hin as [Hin|[<-|[]]].
      * exact (Hfresh c' (or_intror Hc') Hin).
      * exact (Hc Hc').
Qed.

(** Round trip between [_page_url] and [_discover_categories]: when the
    page's links point to the category URLs [_page_url(url, c, page)] of
    distinct categories [c] that [quote] leaves readable (non-empty,
    stripped, made of letters, digits, [_.-~] and inner spaces), and [url]
    holds no [dtche] in any letter case, the categories discovered are
    those categories, in link order, followed by whatever the page HTML
    adds. *)
Theorem page_url_discover_round_trip u p cs html :
  contains (lower u) "dtche" = false ->
  NoDup cs -> (forall c, In c cs -> plain_category c) ->
  exists extra,
    _discover_categories (Some (map (fun c => Some (Some (_page_url u (Some c) p))) cs)) html
    = cs ++ extra.
Proof.
  intros Hu Hnd Hpl.
  destruct (discover_inv (Some (map (fun c => Some (Some (_page_url u (Some c) p))) cs)) html)
    as (_ & _ & extra & He).
  exists extra. unfold _discover_categories. rewrite He.
  rewrite (link_pass_round_trip u p cs ([], [])); [reflexivity|exact Hu|exact Hnd|exact Hpl| |].
  - intros x. reflexivity.
  - intros c _ [].
Qed.

Lemma page_url_discover_round_trip_witness :
  contains (lower "https://shop.example/menu?sort=price") "dtche" = false /\
  NoDup ["Pre Rolls"; "flower"] /\
  (forall c, In c ["Pre Rolls"; "flower"] -> plain_category c) /\
  exists extra,
    _discover_categories
      (Some (map (fun c => Some (Some (_page_url "https://shop.example/menu?sort=price" (Some c) 2)))
                 ["Pre Rolls"; "flower"]))
      (Some "<a href='/menu?dtche%5Bcategory%5D=edibles'>Edibles</a>")
    = ["Pre Rolls"; "flower"] ++ extra.
Proof.
  assert (Hu : contains (lower "https://shop.example/menu?sort=price") "dtche" = false)
    by (vm_compute; reflexivity).
  assert (Hnd : NoDup ["Pre Rolls"; "flower"]).
  { constructor; [intros [H|[]]; discriminate|constructor; [intros []|constructor]]. }
  assert (Hpl : forall c, In c ["Pre Rolls"; "flower"] -> plain_category c).
  { intros c [<-|[<-|[]]]; (split; [discriminate|split; [vm_compute; reflexivity|]]);
      intros ch Hch; vm_compute in Hch;
      repeat destruct Hch as [<-|Hch]; try (left; reflexivity); try (right; reflexivity);
      destruct Hch. }
  split; [exact Hu|]. split; [exact Hnd|]. split; [exact Hpl|].
  exact (page_url_discover_round_trip "https://shop.example/menu?sort=price" 2
           ["Pre Rolls"; "flower"] _ Hu Hnd Hpl).
Defined.

Example discover_from_page_urls :
  _discover_categories
    (Some (map (fun c => Some (Some (_page_url "https://shop.example/menu?sort=price" (Some c) 2)))
               ["Pre Rolls"; "flower"]))
    (Some "<a href='/menu?dtche%5Bcategory%5D=edibles'>Edibles</a>")
  = ["Pre Rolls"; "flower"; "edibles"].
Proof. vm_compute. reflexivity. Qed.

(** * The generic product parser (src/scraping/dutchie_parser.py) *)

Definition _NAME_KEYS : list string := ["name"; "title"; "productname"; "product_name"; "displayname"].
Definition _PRICE_KEYS : list string :=
  ["price"; "baseprice"; "unitprice"; "amount"; "cost"; "discountedprice"; "saleprice"; "listprice"].
Definition _THC_KEYS : list string := ["thc"; "thccontent"; "thcpercentage"; "thcmax"; "thcmin"; "thclevel"].
Definition _CATEGORY_KEYS : list string :=
  ["category"; "type"; "producttype"; "subcategory"; "kind"; "menutype"].

Definition key_in (ks : list string) (k : string) : bool := existsb (String.eqb (lower k)) ks.

(** [_extract_name] (lines 44-48) *)
Fixpoint _extract_name (kvs : list (string * json)) : option string :=
  match kvs with
  | [] => None
  | (k, v) :: r =>
      match v with
      | JStr s => if key_in _NAME_KEYS k && (1 <? String.length (strip s)) then Some (strip s)
                  else _extract_name r
      | _ => _extract_name r
      end
  end.

(** [float(m.group(0))] for the first match of [\d+\.?\d*]: the leading
    digits, then an optional point and the digits after it. *)
Fixpoint take_digits (s : string) : string * string :=
  match s with
  | EmptyString => (EmptyString, EmptyString)
  | String c r =>
      if is_digit c then let (a, b) := take_digits r in (String c a, b) else (EmptyString, s)
  end.

Definition decimal_value (ip fp : string) : Q :=
  Qmake (Z.of_N (dec_val (ip ++ fp)%string 0)) (Pos.of_nat (Nat.pow 10 (String.length fp))).

Definition number_at (s : string) : Q :=
  let (ip, rest) := take_digits s in
  match rest with
  | String "." r => decimal_value ip (fst (take_digits r))
  | _ => decimal_value ip EmptyString
  end.

(** [re.search(r"\d+\.?\d*", s)] followed by [float(m.group(0))]; [None]
    when nothing matches. *)
Fixpoint search_number (s : string) : option Q :=
  match s with
  | EmptyString => None
  | String c r => if is_digit c then Some (number_at s) else search_number r
  end.

(** [s.replace(",", "")] *)
Fixpoint remove_commas (s : string) : string :=
  match s with
  | EmptyString => EmptyString
  | String c r => if Ascii.eqb c "," then remove_commas r else String c (remove_commas r)
  end.

(** [float(v)] of a number; [bool] is a subclass of [int]. *)
Definition bool_num (b : bool) : Q := if b then 1%Q else 0%Q.

(** [_extract_price] (lines 51-64) *)
Fixpoint _extract_price (kvs : list (string * json)) : option Q :=
  match kvs with
  | [] => None
  | (k, v) :: r =>
      if negb (key_in _PRICE_KEYS k) then _extract_price r
      else
        match v with
        | JNum q => if Qlt_le_dec 0 q then Some q else _extract_price r
        | JBool b => if b then Some (bool_num b) else _extract_price r
        | JStr s =>
            match search_number (remove_commas s) with
            | Some x => Some x
            | None => _extract_price r
            end
        | _ => _extract_price r
        end
  end.

(** [_extract_thc] (lines 67-80) *)
Fixpoint _extract_thc (kvs : list (string * json)) : option Q :=
  match kvs with
  | [] => None
  | (k, v) :: r =>
      if negb (key_in _THC_KEYS k) then _extract_thc r
      else
        match v with
        | JNum q => Some q
        | JBool b => Some (bool_num b)
        | JStr s =>
            match search_number s with
            | Some x => Some x
            | None => _extract_thc r
            end
        | _ => _extract_thc r
        end
  end.

(** [_extract_category] (lines 83-93) *)
Fixpoint _extract_category (kvs : list (string * json)) : option string :=
  match kvs with
  | [] => None
  | (k, v) :: r =>
      if negb (key_in _CATEGORY_KEYS k) then _extract_category r
      else
        match v with
        | JStr s => if negb (String.eqb (strip s) EmptyString) then Some (strip s)
                    else _extract_category r
        | JObj ikvs =>
            match py_or (dget ikvs "name") (dget ikvs "title") with
            | JStr s => if negb (String.eqb s EmptyString) then Some (strip s)
                        else _extract_category r
            | _ => _extract_category r
            end
        | _ => _extract_category r
        end
  end.

Record raw_product : Type := mkRaw {
  rProduct : string;
  rCategory : option string;
  rPrice : option Q;
  rTHC : option Q
}.

(** [_search_for_products(obj, depth, max_depth)] with [fuel] standing for
    [max_depth + 1 - depth]: no fuel left is [depth > max_depth]. *)
Fixpoint search_products (fuel : nat) (obj : json) : list raw_product :=
  match fuel with
  | O => []
  | S f =>
      match obj with
      | JObj kvs =>
          (match _extract_name kvs with
           | Some name => [mkRaw name (_extract_category kvs) (_extract_price kvs) (_extract_thc kvs)]
           | None => []
           end) ++
          List.concat (map (fun kv => match snd kv with
                                      | JObj _ | JArr _ => search_products f (snd kv)
                                      | _ => []
                                      end) kvs)
      | JArr items => List.concat (map (search_products f) items)
      | _ => []
      end
  end.

Definition _search_for_products (obj : json) (depth max_depth : nat) : list raw_product :=
  search_products (S max_depth - depth) obj.

(** A captured response [{"url": str, "data": any}]: [pl_url] is [None]
    when the key is absent, [pl_data] is [None] when the key is absent. *)
Record payload : Type := mkPayload {
  pl_url : option string;
  pl_data : option json
}.

Record parsed_row : Type := mkParsed {
  pProduct : string;
  pCategory : option string;
  pPrice : option Q;
  pTHC : option Q;
  pSource : string
}.

Definition api_source_label (src_url : string) : string :=
  if 60 <? String.length src_url
  then "Dutchie API (" ++ substring 0 57 src_url ++ "...)"
  else "Dutchie API (" ++ src_url ++ ")".

(** [(name, price)] tuple equality; prices are floats or [None]. *)
Definition price_eqb (a b : option Q) : bool :=
  match a, b with
  | Some x, Some y => Qeq_bool x y
  | None, None => true
  | _, _ => false
  end.

Definition dkey_eqb (a b : string * option Q) : bool :=
  String.eqb (fst a) (fst b) && price_eqb (snd a) (snd b).

Definition dkey_in (k : string * option Q) (seen : list (string * option Q)) : bool :=
  existsb (dkey_eqb k) seen.

(** The inner loop over [_search_for_products(data)]; the accumulator is
    [(rows, seen_keys)]. *)
Fixpoint add_products (label : string) (ps : list raw_product)
    (acc : list parsed_row * list (string * option Q)) : list parsed_row * list (string * option Q) :=
  match ps with
  | [] => acc
  | p :: r =>
      let k := (rProduct p, rPrice p) in
      if dkey_in k (snd acc) then add_products label r acc
      else add_products label r
             (fst acc ++ [mkParsed (rProduct p) (rCategory p) (rPrice p) (rTHC p) label],
              k :: snd acc)
  end.

Definition parse_payload (acc : list parsed_row * list (string * option Q)) (pl : payload)
    : list parsed_row * list (string * option Q) :=
  let src_url := match pl_url pl with Some s => s | None => "Dutchie API" end in
  let label := api_source_label src_url in
  match pl_data pl with
  | None | Some JNull => acc
  | Some data => add_products label (_search_for_products data 0 8) acc
  end.

(** [parse_dutchie_responses] (lines 133-188): the rows of the returned
    DataFrame; [pd.to_numeric] leaves the float-or-None Price and THC
    columns as they are (None becoming NaN). *)
Definition parse_dutchie_responses (payloads : list payload) : list parsed_row :=
  fst (fold_left parse_payload payloads ([], [])).

(** * Properties *)

Lemma decimal_value_nonneg ip fp : (0 <= decimal_value ip fp)%Q.
Proof. unfold decimal_value, Qle. cbn [Qnum Qden]. lia. Qed.

Lemma number_at_nonneg s : (0 <= number_at s)%Q.
Proof.
  unfold number_at. destruct (take_digits s) as [ip rest].
  destruct rest as [|c r]; [apply decimal_value_nonneg|].
  destruct (Ascii.eqb c ".") eqn:E.
  - apply Ascii.eqb_eq in E. subst c. apply decimal_value_nonneg.
  - destruct c as [[] [] [] [] [] [] [] []]; try apply decimal_value_nonneg; discriminate.
Qed.

Lemma search_number_nonneg s q : search_number s = Some q -> (0 <= q)%Q.
Proof.
  induction s as [|c r IH]; cbn [search_number]; [discriminate|].
  destruct (is_digit c); [intros H; injection H as <-; apply number_at_nonneg|exact IH].
Qed.

Definition price_ok (p : option Q) : Prop :=
  match p with Some q => (0 <= q)%Q | None => True end.

Lemma extract_price_ok kvs : price_ok (_extract_price kvs).
Proof.
  unfold price_ok.
  induction kvs as [|[k v] r IH]; cbn [_extract_price]; [exact I|].
  destruct (negb (key_in _PRICE_KEYS k)); [exact IH|].
  destruct v as [|b|x|s| |]; try exact IH.
  - destruct b; [cbn; discriminate|exact IH].
  - destruct (Qlt_le_dec 0 x) as [Hx|_]; [apply Qlt_le_weak, Hx|exact IH].
  - destruct (search_number (remove_commas s)) as [y|] eqn:E; [|exact IH].
    exact (search_number_nonneg _ _ E).
Qed.

(** [_extract_price] never returns a negative price: a number is taken
    only when it is positive (bools as 0 and 1), a string yields the
    unsigned decimal it contains, and non-positive numbers are passed over
    in favour of the next price key. *)
Theorem extract_price_nonneg kvs q : _extract_price kvs = Some q -> (0 <= q)%Q.
Proof.
  intros H. generalize (extract_price_ok kvs). rewrite H. exact (fun h => h).
Qed.

Lemma extract_price_nonneg_witness :
  _extract_price [("price", JNum (-5)); ("salePrice", JStr "$1,299.99")] = Some (129999 # 100)%Q /\
  (0 <= 129999 # 100)%Q.
Proof.
  assert (H : _extract_price [("price", JNum (-5)); ("salePrice", JStr "$1,299.99")] = Some (129999 # 100)%Q)
    by (vm_compute; reflexivity).
  split; [exact H|exact (extract_price_nonneg _ _ H)].
Defined.

Definition good_name (n : string) : Prop := strip n = n /\ 2 <= String.length n.

Lemma extract_name_good kvs n : _extract_name kvs = Some n -> good_name n.
Proof.
  induction kvs as [|[k v] r IH]; cbn [_extract_name]; [discriminate|].
  destruct v as [| | |s| |]; try exact IH.
  destruct (key_in _NAME_KEYS k && (1 <? String.length (strip s))) eqn:E; [|exact IH].
  intros H. injection H as <-. apply andb_true_iff in E as [_ E]. apply Nat.ltb_lt in E.
  split; [apply strip_idem|lia].
Qed.


Lemma search_products_good fuel : forall obj p, In p (search_products fuel obj) ->
  good_name (rProduct p) /\ price_ok (rPrice p).
Proof.
  induction fuel as [|f IH]; intros obj p; cbn [search_products]; [intros []|].
  destruct obj as [| | | |items|kvs]; try (intros []).
  - intros H. apply in_concat in H as (l & Hl & Hp). apply in_map_iff in Hl as (x & <- & _).
    exact (IH _ _ Hp).
  - intros H. apply in_app_iff in H as [H|H].
    + destruct (_extract_name kvs) as [n|] eqn:E; [|destruct H].
      destruct H as [<-|[]]. cbn [rProduct rPrice].
      split; [exact (extract_name_good _ _ E)|apply extract_price_ok].
    + apply in_concat in H as (l & Hl & Hp). apply in_map_iff in Hl as ([k v] & <- & _).
      cbn [snd] in Hp. destruct v; try destruct Hp; exact (IH _ _ Hp).
Qed.

(** The rows' [(Product, Price)] keys, pairwise different under [==]. *)
Definition dkey (r : parsed_row) : string * option Q := (pProduct r, pPrice r).

Fixpoint dkeys_distinct (rows : list parsed_row) : Prop :=
  match rows with
  | [] => True
  | r :: rs => (forall r', In r' rs -> dkey_eqb (dkey r) (dkey r') = false) /\ dkeys_distinct rs
  end.

Lemma dkey_eqb_sym a b : dkey_eqb a b = dkey_eqb b a.
Proof.
  destruct a as [n p], b as [n' p']. unfold dkey_eqb. cbn [fst snd].
  rewrite String.eqb_sym. f_equal.
  destruct p, p'; cbn [price_eqb]; try reflexivity. apply Qeq_bool_sym_b.
Qed.

Lemma dkey_eqb_refl k : dkey_eqb k k = true.
Proof.
  destruct k as [n [q|]]; unfold dkey_eqb; cbn [fst snd price_eqb];
    rewrite String.eqb_refl; [apply Qeq_bool_iff; reflexivity|reflexivity].
Qed.

Lemma dkeys_distinct_snoc rows x :
  dkeys_distinct rows -> (forall r, In r rows -> dkey_eqb (dkey r) (dkey x) = false) ->
  dkeys_distinct (rows ++ [x]).
Proof.
  induction rows as [|r rs IH]; intros Hd Hx; cbn [app dkeys_distinct].
  - split; [intros r' []|exact I].
  - destruct Hd as [Hr Hrs]. split.
    + intros r' Hr'. apply in_app_iff in Hr' as [Hr'|[<-|[]]]; [exact (Hr r' Hr')|].
      apply Hx. left. reflexivity.
    + apply IH; [exact Hrs|intros r' Hr'; apply Hx; right; exact Hr'].
Qed.

(** The invariant of the accumulator [(rows, seen_keys)]. *)
Definition parse_inv (acc : list parsed_row * list (string * option Q)) : Prop :=
  dkeys_distinct (fst acc) /\
  (forall r, In r (fst acc) -> In (dkey r) (snd acc)) /\
  (forall r, In r (fst acc) ->
     good_name (pProduct r) /\ price_ok (pPrice r) /\
     exists rest, pSource r = ("Dutchie API (" ++ rest)%string /\ String.length (pSource r) <= 74).

Lemma substring_0_length n s : String.length (substring 0 n s) <= n.
Proof.
  revert s; induction n as [|n IH]; intros s; destruct s as [|c r]; cbn; try lia.
  specialize (IH r). lia.
Qed.

Lemma str_length_app a b : String.length (a ++ b) = String.length a + String.length b.
Proof. induction a as [|c r IH]; cbn; [reflexivity|]. rewrite IH. reflexivity. Qed.

Lemma source_label_shape src : exists rest,
  api_source_label src = ("Dutchie API (" ++ rest)%string /\ String.length (api_source_label src) <= 74.
Proof.
  unfold api_source_label. destruct (60 <? String.length src) eqn:E.
  - eexists. split; [reflexivity|].
    rewrite str_length_app, str_length_app. pose proof (substring_0_length 57 src). cbn. lia.
  - eexists. split; [reflexivity|].
    apply Nat.ltb_ge in E. rewrite str_length_app, str_length_app. cbn. lia.
Qed.

Lemma add_products_inv label ps : forall acc,
  (exists rest, label = ("Dutchie API (" ++ rest)%string /\ String.length label <= 74) ->
  (forall p, In p ps -> good_name (rProduct p) /\ price_ok (rPrice p)) ->
  parse_inv acc -> parse_inv (add_products label ps acc).
Proof.
  induction ps as [|p r IH]; intros acc Hl Hps Hacc; cbn [add_products]; [exact Hacc|].
  destruct (dkey_in (rProduct p, rPrice p) (snd acc)) eqn:E.
  - apply IH; [exact Hl|intros p' Hp'; apply Hps; right; exact Hp'|exact Hacc].
  - apply IH; [exact Hl|intros p' Hp'; apply Hps; right; exact Hp'|].
    destruct Hacc as (Hd & Hin & Hg). unfold parse_inv. cbn [fst snd]. split; [|split].
    + apply dkeys_distinct_snoc; [exact Hd|]. intros r0 Hr0.
      rewrite dkey_eqb_sym. cbn [dkey pProduct pPrice].
      destruct (dkey_eqb (rProduct p, rPrice p) (dkey r0)) eqn:E2; [|exact E2].
      exfalso. assert (Hx : dkey_in (rProduct p, rPrice p) (snd acc) = true).
      { apply existsb_exists. exists (dkey r0). split; [exact (Hin r0 Hr0)|exact E2]. }
      congruence.
    + intros r0 Hr0. apply in_app_iff in Hr0 as [Hr0|[<-|[]]]; [right; exact (Hin r0 Hr0)|left; reflexivity].
    + intros r0 Hr0. apply in_app_iff in Hr0 as [Hr0|[<-|[]]]; [exact (Hg r0 Hr0)|].
      cbn [pProduct pPrice pSource]. destruct (Hps p (or_introl eq_refl)) as [H1 H2].
      split; [exact H1|split; [exact H2|exact Hl]].
Qed.

Lemma parse_payload_inv acc pl : parse_inv acc -> parse_inv (parse_payload acc pl).
Proof.
  intros H. unfold parse_payload.
  destruct (pl_data pl) as [[| | | | |]|]; try exact H;
    (apply add_products_inv; [apply source_label_shape|intros p Hp; exact (search_products_good _ _ _ Hp)|exact H]).
Qed.

(** Every row [parse_dutchie_responses] returns has a stripped product name
    of at least two characters, a price that is absent or not negative,
    and a [Source] label that starts with ["Dutchie API ("] and is at most
    74 characters long (long URLs are cut to 57 characters); and no two
    rows have [==] [(Product, Price)] keys. *)
Theorem parse_dutchie_rows_clean payloads :
  let rows := parse_dutchie_responses payloads in
  dkeys_distinct rows /\
  forall r, In r rows ->
    strip (pProduct r) = pProduct r /\ 2 <= String.length (pProduct r) /\
    price_ok (pPrice r) /\
    exists rest, pSource r = ("Dutchie API (" ++ rest)%string /\ String.length (pSource r) <= 74.
Proof.
  cbv zeta. unfold parse_dutchie_responses.
  assert (H : forall pls acc, parse_inv acc -> parse_inv (fold_left parse_payload pls acc)).
  { induction pls as [|pl r IH]; intros acc Hacc; [exact Hacc|]. cbn [fold_left].
    apply IH, parse_payload_inv, Hacc. }
  destruct (H payloads ([], [])) as (Hd & _ & Hg).
  - split; [exact I|split; intros r []].
  - split; [exact Hd|]. intros r Hr. destruct (Hg r Hr) as ([H1 H2] & H3 & H4). auto.
Qed.

(** The [(name, price)] keys a payload contributes. *)
Definition payload_keys (pl : payload) : list (string * option Q) :=
  match pl_data pl with
  | None | Some JNull => []
  | Some data => map (fun p => (rProduct p, rPrice p)) (_search_for_products data 0 8)
  end.

Lemma dkey_in_app_r k extra seen : dkey_in k seen = true -> dkey_in k (extra ++ seen) = true.
Proof. unfold dkey_in. rewrite existsb_app. intros ->. apply orb_true_r. Qed.

Lemma add_products_seen label ps : forall acc,
  (exists extra, snd (add_products label ps acc) = extra ++ snd acc) /\
  forall p, In p ps -> dkey_in (rProduct p, rPrice p) (snd (add_products label ps acc)) = true.
Proof.
  induction ps as [|p r IH]; intros acc; cbn [add_products].
  - split; [exists []; reflexivity|intros p []].
  - destruct (dkey_in (rProduct p, rPrice p) (snd acc)) eqn:E.
    + destruct (IH acc) as [[extra He] Hr]. split; [exists extra; exact He|].
      intros p' [<-|Hp']; [rewrite He; apply dkey_in_app_r; exact E|exact (Hr p' Hp')].
    + set (acc1 := (fst acc ++ [mkParsed (rProduct p) (rCategory p) (rPrice p) (rTHC p) label],
                    (rProduct p, rPrice p) :: snd acc)).
      destruct (IH acc1) as [[extra He] Hr]. split.
      * exists (extra ++ [(rProduct p, rPrice p)]). rewrite He, <- app_assoc. reflexivity.
      * intros p' [<-|Hp']; [|exact (Hr p' Hp')].
        rewrite He. apply dkey_in_app_r. cbn [acc1 snd dkey_in existsb].
        rewrite dkey_eqb_refl. reflexivity.
Qed.

Lemma add_products_noop label ps : forall acc,
  (forall p, In p ps -> dkey_in (rProduct p, rPrice p) (snd acc) = true) ->
  add_products label ps acc = acc.
Proof.
  induction ps as [|p r IH]; intros acc H; cbn [add_products]; [reflexivity|].
  rewrite (H p (or_introl eq_refl)). apply IH. intros p' Hp'. apply H. right. exact Hp'.
Qed.

Lemma fold_parse_seen pls : forall acc,
  (exists extra, snd (fold_left parse_payload pls acc) = extra ++ snd acc) /\
  forall pl k, In pl pls -> In k (payload_keys pl) ->
    dkey_in k (snd (fold_left parse_payload pls acc)) = true.
Proof.
  induction pls as [|pl r IH]; intros acc; cbn [fold_left].
  - split; [exists []; reflexivity|intros pl k []].
  - destruct (IH (parse_payload acc pl)) as [[extra He] Hr].
    assert (Hpl : (exists extra1, snd (parse_payload acc pl) = extra1 ++ snd acc) /\
                  forall k, In k (payload_keys pl) -> dkey_in k (snd (parse_payload acc pl)) = true).
    { unfold parse_payload, payload_keys.
      destruct (pl_data pl) as [d|]; [|split; [exists []; reflexivity|intros k []]].
      destruct (add_products_seen (api_source_label match pl_url pl with Some s => s | None => "Dutchie API" end)
                  (_search_for_products d 0 8) acc) as [He1 Hr1].
      destruct d; try (split; [exists []; reflexivity|intros k []]);
        (split; [exact He1|];
         intros k Hk; apply in_map_iff in Hk as (p & <- & Hp); exact (Hr1 p Hp)). }
    destruct Hpl as [[extra1 He1] Hk1]. split.
    + exists (extra ++ extra1). rewrite He, He1, app_assoc. reflexivity.
    + intros pl' k [<-|Hpl'] Hk; [|exact (Hr pl' k Hpl' Hk)].
      rewrite He. apply dkey_in_app_r. exact (Hk1 k Hk).
Qed.

Lemma fold_parse_noop pls : forall acc,
  (forall pl k, In pl pls -> In k (payload_keys pl) -> dkey_in k (snd acc) = true) ->
  fold_left parse_payload pls acc = acc.
Proof.
  induction pls as [|pl r IH]; intros acc H; cbn [fold_left]; [reflexivity|].
  assert (E : parse_payload acc pl = acc).
  { unfold parse_payload. specialize (H pl). unfold payload_keys in H.
    destruct (pl_data pl) as [d|]; [|reflexivity].
    assert (Hd : add_products (api_source_label match pl_url pl with Some s => s | None => "Dutchie API" end)
                   (_search_for_products d 0 8) acc = acc).
    { apply add_products_noop. intros p Hp. destruct d; try exact (H _ (or_introl eq_refl) (in_map _ _ _ Hp)).
      cbn in Hp. destruct Hp. }
    destruct d; first [reflexivity|exact Hd]. }
  rewrite E. apply IH. intros pl' k Hpl' Hk. apply (H pl' k (or_intror Hpl') Hk).
Qed.

(** Replaying responses already parsed adds nothing: appending payloads
    that are among [payloads] (the same response captured twice, for
    instance) leaves the table of [parse_dutchie_responses] unchanged. *)
Theorem parse_dutchie_replay payloads replayed :
  (forall pl, In pl replayed -> In pl payloads) ->
  parse_dutchie_responses (payloads ++ replayed) = parse_dutchie_responses payloads.
Proof.
  intros Hsub. unfold parse_dutchie_responses. rewrite fold_left_app.
  rewrite (fold_parse_noop replayed); [reflexivity|].
  intros pl k Hpl Hk. destruct (fold_parse_seen payloads ([], [])) as [_ Hs].
  exact (Hs pl k (Hsub pl Hpl) Hk).
Qed.

Definition replay_payload : payload :=
  mkPayload (Some "https://dutchie.com/graphql")
    (Some (JObj [("data", JObj [("products",
       JArr [JObj [("name", JStr "Runtz"); ("price", JNum 30)];
             JObj [("name", JStr "Gelato"); ("price", JStr "35.00")]])])])).

Lemma parse_dutchie_replay_witness :
  (forall pl, In pl [replay_payload] -> In pl [replay_payload; mkPayload None None]) /\
  parse_dutchie_responses ([replay_payload; mkPayload None None] ++ [replay_payload]) =
  parse_dutchie_responses [replay_payload; mkPayload None None].
Proof.
  assert (H : forall pl, In pl [replay_payload] -> In pl [replay_payload; mkPayload None None]).
  { intros pl [<-|[]]. left. reflexivity. }
  split; [exact H|].
  exact (parse_dutchie_replay [replay_payload; mkPayload None None] [replay_payload] H).
Defined.

Example replay_payload_rows :
  List.length (parse_dutchie_responses [replay_payload; replay_payload]) = 2.
Proof. vm_compute. reflexivity. Qed.

(** * The menu router [fetch_competitor_menu] (src/app.py, lines 599-741) *)

(** The entries of [debug_info] the router writes itself: [final_url],
    [engine_initial], [engine_final], [browser_used], [captured_count] and
    [parse_notes] (the lists copied verbatim from the crawler's debug dict
    are left out). *)
Record menu_debug : Type := mkDebug {
  dbg_final_url : string;
  dbg_engine_initial : option string;
  dbg_engine_final : option string;
  dbg_browser_used : bool;
  dbg_captured_count : nat;
  dbg_parse_notes : list string
}.

(** [debug_info["parse_notes"].append(n)] *)
Definition dbg_note (d : menu_debug) (n : string) : menu_debug :=
  mkDebug (dbg_final_url d) (dbg_engine_initial d) (dbg_engine_final d) (dbg_browser_used d)
    (dbg_captured_count d) (dbg_parse_notes d ++ [n]).

(** [debug_info["engine_final"] = e] *)
Definition dbg_set_engine_final (d : menu_debug) (e : string) : menu_debug :=
  mkDebug (dbg_final_url d) (dbg_engine_initial d) (Some e) (dbg_browser_used d)
    (dbg_captured_count d) (dbg_parse_notes d).

(** [engine in {"dutchie", "jane", "weedmaps", "dispense"}] *)
Definition js_heavy_engine (e : string) : bool :=
  existsb (String.eqb e) ["dutchie"; "jane"; "weedmaps"; "dispense"].

Section Router.

(** A DataFrame, [df.empty], [len(df)] and [pd.DataFrame()]. *)
Variable frame : Type.
Variable frame_empty : frame -> bool.
Variable frame_len : frame -> nat.
Variable empty_frame : frame.

(** The collaborators; [None] is an exception escaping the call.
    [fetch_html] returns [resp.text] or [None]; [crawl_dutchie] returns the
    table with the [captured_count] and [parse_notes] of its debug dict;
    [browser_fetch] returns [(html, payloads, final_url)];
    [parse_dutchie_df] is the DataFrame of [parse_dutchie_responses]. *)
Variable HAS_BROWSER_HELPERS : bool.
Variable fetch_html : string -> option string.
Variable detect_engine : string -> string -> string.
Variable crawl_dutchie : string -> option string -> option (frame * nat * list string).
Variable browser_fetch : string -> option (string * list payload * string).
Variable parse_dutchie_df : list payload -> option frame.
Variables fetch_menu_dutchie fetch_menu_jane fetch_menu_weedmaps
  fetch_menu_dispense fetch_menu_tymber fetch_menu_generic : string -> string -> option frame.
Variable ocr_menu_from_url : string -> option frame.

(** Step 2: engine-specific or generic HTML parsing (lines 705-716). *)
Definition html_parse (engine url html : string) : option frame :=
  if String.eqb engine "dutchie" then fetch_menu_dutchie url html
  else if String.eqb engine "jane" then fetch_menu_jane url html
  else if String.eqb engine "weedmaps" then fetch_menu_weedmaps url html
  else if String.eqb engine "dispense" then fetch_menu_dispense url html
  else if String.eqb engine "tymber" then fetch_menu_tymber url html
  else fetch_menu_generic url html.

(** Steps 2 and 3 (lines 705-741); [js_heavy] is the flag computed at
    line 667 from the engine detected first. *)
Definition html_then_ocr (js_heavy : bool) (url html engine : string) (d : menu_debug)
    : option (frame * option string * menu_debug) :=
  match html_parse engine url html with
  | None => None
  | Some df =>
      if negb (frame_empty df) then
        Some (df, Some engine,
              dbg_note d ("HTML/JSON-LD extraction found " ++ nat_to_string (frame_len df) ++ " products"))
      else
        let d := dbg_note d "HTML/JSON-LD extraction found 0 products" in
        if js_heavy then
          match ocr_menu_from_url url with
          | None => None
          | Some df_ocr =>
              if negb (frame_empty df_ocr) then
                Some (df_ocr, Some engine,
                      dbg_note d ("OCR fallback found " ++ nat_to_string (frame_len df_ocr) ++ " products"))
              else Some (df, Some engine, dbg_note d "OCR fallback found 0 products")
          end
        else Some (df, Some engine, d)
  end.

(** Lines 690-741: [engine_final], then step 1 (API payloads), then
    [html_then_ocr]. *)
Definition api_then_html (js_heavy : bool) (url html engine : string)
    (browser_payloads : list payload) (d : menu_debug)
    : option (frame * option string * menu_debug) :=
  let d := dbg_set_engine_final d engine in
  if negb (match browser_payloads with [] => true | _ => false end) && HAS_BROWSER_HELPERS then
    match parse_dutchie_df browser_payloads with
    | None => None
    | Some df_api =>
        if negb (frame_empty df_api) then
          Some (df_api, Some engine,
                dbg_note d ("API extraction found " ++ nat_to_string (frame_len df_api) ++ " products"))
        else
          html_then_ocr js_heavy url html engine
            (dbg_note d ("API extraction found 0 products from " ++
                         nat_to_string (List.length browser_payloads) ++ " responses"))
    end
  else html_then_ocr js_heavy url html engine d.

(** Lines 667-741: the generic browser block, then the rest. When
    [browser_fetch] raises, the [except] branch assigns only [bhtml] and
    [browser_payloads], and line 680 reads the unassigned local
    [final_url], which raises [UnboundLocalError]. *)
Definition browser_then_rest (url html engine : string) (use_browser : bool) (d : menu_debug)
    : option (frame * option string * menu_debug) :=
  let js_heavy := js_heavy_engine engine in
  if (use_browser || js_heavy) && HAS_BROWSER_HELPERS && negb (String.eqb engine "dutchie")
  then
    match browser_fetch url with
    | None => None
    | Some (bhtml, browser_payloads, final_url) =>
        let d := mkDebug final_url (dbg_engine_initial d) (dbg_engine_final d) true
                   (match browser_payloads with
                    | [] => dbg_captured_count d
                    | _ => List.length browser_payloads end)
                   (dbg_parse_notes d) in
        if negb (String.eqb bhtml EmptyString) then
          let detected := detect_engine final_url bhtml in
          let engine := if negb (String.eqb detected EmptyString) then detected else engine in
          api_then_html js_heavy url bhtml engine browser_payloads d
        else api_then_html js_heavy url html engine browser_payloads d
    end
  else api_then_html js_heavy url html engine [] d.

Definition fetch_competitor_menu (url : string) (use_browser : bool) (menu_type : option string)
    : option (frame * option string * menu_debug) :=
  let debug_info := mkDebug url None None false 0 [] in
  match fetch_html url with
  | None => Some (empty_frame, None, debug_info)
  | Some html =>
      if String.eqb html EmptyString then Some (empty_frame, None, debug_info)
      else
        let engine := detect_engine url html in
        let debug_info := mkDebug url (Some engine) None false 0 [] in
        if String.eqb engine "dutchie" && HAS_BROWSER_HELPERS then
          match crawl_dutchie url menu_type with
          | None => None
          | Some (df_dutchie, captured_count, notes) =>
              let debug_info := mkDebug url (Some engine) (Some engine) true captured_count notes in
              if negb (frame_empty df_dutchie) then
                Some (df_dutchie, Some engine,
                      dbg_note debug_info
                        ("Dutchie GraphQL crawler found " ++ nat_to_string (frame_len df_dutchie) ++ " rows"))
              else
                browser_then_rest url html engine use_browser
                  (dbg_note debug_info "Dutchie GraphQL crawler found 0 rows – falling back to HTML parsing")
          end
        else browser_then_rest url html engine use_browser debug_info
  end.

End Router.

Section RouterFacts.

Variable frame : Type.
Variable frame_empty : frame -> bool.
Variable frame_len : frame -> nat.
Variable empty_frame : frame.
Variable HAS_BROWSER_HELPERS : bool.
Variable fetch_html : string -> option string.
Variable detect_engine : string -> string -> string.
Variable crawl_dutchie : string -> option string -> option (frame * nat * list string).
Variable browser_fetch : string -> option (string * list payload * string).
Variable parse_dutchie_df : list payload -> option frame.
Variables fetch_menu_dutchie fetch_menu_jane fetch_menu_weedmaps
  fetch_menu_dispense fetch_menu_tymber fetch_menu_generic : string -> string -> option frame.
Variable ocr_menu_from_url : string -> option frame.

(** When browser mode runs (browser requested or a JS-heavy engine other
    than Dutchie, with the helpers loaded) and [browser_fetch] raises,
    [fetch_competitor_menu] raises too: the [except] branch leaves
    [final_url] unassigned and line 680 reads it ([UnboundLocalError]). *)
Lemma fetch_competitor_menu_browser_error_raises url use_browser menu_type html :
  fetch_html url = Some html -> html <> EmptyString ->
  detect_engine url html <> "dutchie" ->
  (use_browser || js_heavy_engine (detect_engine url html)) = true ->
  HAS_BROWSER_HELPERS = true ->
  browser_fetch url = None ->
  fetch_competitor_menu frame frame_empty frame_len empty_frame HAS_BROWSER_HELPERS fetch_html
    detect_engine crawl_dutchie browser_fetch parse_dutchie_df fetch_menu_dutchie fetch_menu_jane fetch_menu_weedmaps
    fetch_menu_dispense fetch_menu_tymber fetch_menu_generic ocr_menu_from_url
    url use_browser menu_type = None.
Proof.
  intros Hf Hne Hd Hjs Hh Hb.
  unfold fetch_competitor_menu. rewrite Hf.
  apply String.eqb_neq in Hne, Hd. rewrite Hne, Hd. cbn [andb].
  unfold browser_then_rest. rewrite Hjs, Hh, Hd. cbn [andb negb]. rewrite Hb. reflexivity.
Qed.

Lemma html_then_ocr_engine ocr js url html engine d df e d' :
  html_then_ocr frame frame_empty frame_len fetch_menu_dutchie fetch_menu_jane fetch_menu_weedmaps
    fetch_menu_dispense fetch_menu_tymber fetch_menu_generic ocr js url html engine d
  = Some (df, e, d') ->
  dbg_engine_final d = Some engine -> e = Some engine /\ dbg_engine_final d' = Some engine.
Proof.
  unfold html_then_ocr. intros H Hd.
  destruct (html_parse _ _ _ _ _ _ _ _ _ _) as [df0|]; [|discriminate].
  destruct (negb (frame_empty df0)).
  - injection H as <- <- <-. auto.
  - destruct js.
    + destruct (ocr url) as [df1|]; [|discriminate].
      destruct (negb (frame_empty df1)); injection H as <- <- <-; auto.
    + injection H as <- <- <-. auto.
Qed.

Lemma api_then_html_engine hbh pd ocr js url html engine pls d df e d' :
  api_then_html frame frame_empty frame_len hbh pd fetch_menu_dutchie fetch_menu_jane
    fetch_menu_weedmaps fetch_menu_dispense fetch_menu_tymber fetch_menu_generic ocr
    js url html engine pls d = Some (df, e, d') ->
  e = Some engine /\ dbg_engine_final d' = Some engine.
Proof.
  unfold api_then_html. intros H.
  destruct (_ && hbh).
  - destruct (pd pls) as [df0|]; [|discriminate].
    destruct (negb (frame_empty df0)).
    + injection H as <- <- <-. auto.
    + eapply html_then_ocr_engine; [exact H|reflexivity].
  - eapply html_then_ocr_engine; [exact H|reflexivity].
Qed.

(** The engine [fetch_competitor_menu] returns is always the one it
    records as [debug_info["engine_final"]] (both [None] when the page
    could not be fetched). *)
Lemma fetch_competitor_menu_engine_final hbh cd bf pd ocr url use_browser menu_type df e d :
  fetch_competitor_menu frame frame_empty frame_len empty_frame hbh fetch_html
    detect_engine cd bf pd fetch_menu_dutchie fetch_menu_jane fetch_menu_weedmaps
    fetch_menu_dispense fetch_menu_tymber fetch_menu_generic ocr url use_browser menu_type = Some (df, e, d) ->
  dbg_engine_final d = e.
Proof.
  unfold fetch_competitor_menu. intros H.
  destruct (fetch_html url) as [html|].
  2:{ injection H as <- <- <-. reflexivity. }
  destruct (String.eqb html EmptyString).
  { injection H as <- <- <-. reflexivity. }
  assert (Hb : forall ub d0 df e d,
    browser_then_rest frame frame_empty frame_len hbh detect_engine bf pd fetch_menu_dutchie
      fetch_menu_jane fetch_menu_weedmaps fetch_menu_dispense fetch_menu_tymber fetch_menu_generic
      ocr url html (detect_engine url html) ub d0 = Some (df, e, d) -> dbg_engine_final d = e).
  { clear H. intros ub d0 df0 e0 d1 H. unfold browser_then_rest in H.
    destruct (_ && _ && _).
    - destruct (bf url) as [[[bhtml pls] furl]|]; [|discriminate].
      destruct (negb (String.eqb bhtml EmptyString));
        apply api_then_html_engine in H; destruct H as [-> ->]; reflexivity.
    - apply api_then_html_engine in H; destruct H as [-> ->]; reflexivity. }
  destruct (String.eqb (detect_engine url html) "dutchie" && hbh).
  - destruct (cd url menu_type) as [[[dfd cc] notes]|]; [|discriminate].
    destruct (negb (frame_empty dfd)).
    + injection H as <- <- <-. reflexivity.
    + eapply Hb. exact H.
  - eapply Hb. exact H.
Qed.

(** When the first engine detected is Dutchie, [fetch_competitor_menu]
    never calls [browser_fetch]: its outcome is the same whatever
    [browser_fetch] does. *)
Lemma fetch_competitor_menu_dutchie_no_browser hbh cd pd ocr bf bf' url use_browser menu_type html :
  fetch_html url = Some html -> detect_engine url html = "dutchie" ->
  fetch_competitor_menu frame frame_empty frame_len empty_frame hbh fetch_html
    detect_engine cd bf pd fetch_menu_dutchie fetch_menu_jane fetch_menu_weedmaps
    fetch_menu_dispense fetch_menu_tymber fetch_menu_generic ocr url use_browser menu_type =
  fetch_competitor_menu frame frame_empty frame_len empty_frame hbh fetch_html
    detect_engine cd bf' pd fetch_menu_dutchie fetch_menu_jane fetch_menu_weedmaps
    fetch_menu_dispense fetch_menu_tymber fetch_menu_generic ocr url use_browser menu_type.
Proof.
  intros Hf Hd. unfold fetch_competitor_menu. rewrite Hf.
  destruct (String.eqb html EmptyString); [reflexivity|].
  unfold browser_then_rest. rewrite Hd. cbn [String.eqb Ascii.eqb Bool.eqb negb].
  rewrite !andb_false_r. reflexivity.
Qed.

(** The OCR fallback is decided by the engine detected first: when that
    engine is not one of Dutchie, Jane, Weedmaps or Dispense,
    [fetch_competitor_menu] never calls [ocr_menu_from_url], even if the
    rendered page is later detected as one of them. *)
Lemma fetch_competitor_menu_no_ocr_unless_js_heavy hbh cd bf pd ocr ocr' url use_browser menu_type html :
  fetch_html url = Some html -> js_heavy_engine (detect_engine url html) = false ->
  fetch_competitor_menu frame frame_empty frame_len empty_frame hbh fetch_html
    detect_engine cd bf pd fetch_menu_dutchie fetch_menu_jane fetch_menu_weedmaps
    fetch_menu_dispense fetch_menu_tymber fetch_menu_generic ocr url use_browser menu_type =
  fetch_competitor_menu frame frame_empty frame_len empty_frame hbh fetch_html
    detect_engine cd bf pd fetch_menu_dutchie fetch_menu_jane fetch_menu_weedmaps
    fetch_menu_dispense fetch_menu_tymber fetch_menu_generic ocr' url use_browser menu_type.
Proof.
  intros Hf Hj. unfold fetch_competitor_menu. rewrite Hf.
  destruct (String.eqb html EmptyString); [reflexivity|].
  assert (Hn : String.eqb (detect_engine url html) "dutchie" = false).
  { destruct (String.eqb_spec (detect_engine url html) "dutchie") as [E|]; [|reflexivity].
    rewrite E in Hj. discriminate. }
  rewrite Hn. cbn [andb].
  unfold browser_then_rest. rewrite Hj.
  unfold api_then_html, html_then_ocr.
  destruct (_ && _ && _); [destruct (bf url) as [[[bhtml pls] furl]|]; [|reflexivity];
    destruct (negb (String.eqb bhtml EmptyString))|]; reflexivity.
Qed.

(** Without the browser helpers ([HAS_BROWSER_HELPERS] false, the import
    having failed), [fetch_competitor_menu] never calls [crawl_dutchie],
    [browser_fetch] or the payload parser. *)
Lemma fetch_competitor_menu_no_helpers cd cd' bf bf' pd pd' ocr url use_browser menu_type :
  fetch_competitor_menu frame frame_empty frame_len empty_frame false fetch_html
    detect_engine cd bf pd fetch_menu_dutchie fetch_menu_jane fetch_menu_weedmaps
    fetch_menu_dispense fetch_menu_tymber fetch_menu_generic ocr url use_browser menu_type =
  fetch_competitor_menu frame frame_empty frame_len empty_frame false fetch_html
    detect_engine cd' bf' pd' fetch_menu_dutchie fetch_menu_jane fetch_menu_weedmaps
    fetch_menu_dispense fetch_menu_tymber fetch_menu_generic ocr url use_browser menu_type.
Proof.
  unfold fetch_competitor_menu, browser_then_rest, api_then_html.
  destruct (fetch_html url) as [html|]; [|reflexivity].
  rewrite !andb_false_r. cbn [andb]. reflexivity.
Qed.

End RouterFacts.

(** A concrete router: a frame is its row count, every HTML parser finds
    nothing, the page is rendered as a Jane menu. *)
Definition demo_html (url : string) : option string := Some "<div id=app></div>".

Definition demo_router (hbh : bool) (detect : string -> string -> string)
    (cd : string -> option string -> option (nat * nat * list string))
    (bf : string -> option (string * list payload * string))
    (ocr : string -> option nat) :=
  fetch_competitor_menu nat (fun n => Nat.eqb n 0) (fun n => n) 0 hbh demo_html detect cd bf
    (fun pls => Some (List.length (parse_dutchie_responses pls)))
    (fun _ _ => Some 0) (fun _ _ => Some 0) (fun _ _ => Some 0) (fun _ _ => Some 0)
    (fun _ _ => Some 0) (fun _ _ => Some 0) ocr.

Lemma fetch_competitor_menu_browser_error_raises_witness :
  demo_router true (fun _ _ => "jane") (fun _ _ => None) (fun _ => None) (fun _ => Some 4)
    "https://shop.example/menu" false None = None.
Proof.
  apply (fetch_competitor_menu_browser_error_raises nat (fun n => Nat.eqb n 0) (fun n => n) 0 true
    demo_html (fun _ _ => "jane") (fun _ _ => None) (fun _ => None)
    (fun pls => Some (List.length (parse_dutchie_responses pls)))
    (fun _ _ => Some 0) (fun _ _ => Some 0) (fun _ _ => Some 0) (fun _ _ => Some 0)
    (fun _ _ => Some 0) (fun _ _ => Some 0) (fun _ => Some 4)
    "https://shop.example/menu" false None "<div id=app></div>");
  first [reflexivity | discriminate].
Defined.

Definition demo_payload : payload :=
  {| pl_url := Some "https://shop.example/graphql";
     pl_data := Some (JObj [("name", JStr "Blue Dream"); ("price", JNum 35)]) |}.

Lemma fetch_competitor_menu_engine_final_witness :
  demo_router true (fun u _ => if String.eqb u "https://shop.example/menu" then "generic" else "jane")
    (fun _ _ => None) (fun _ => Some ("<html></html>", [demo_payload], "https://shop.example/r"))
    (fun _ => Some 4) "https://shop.example/menu" true None
  = Some (1, Some "jane",
          mkDebug "https://shop.example/r" (Some "generic") (Some "jane") true 1
            ["API extraction found 1 products"]) /\
  dbg_engine_final (mkDebug "https://shop.example/r" (Some "generic") (Some "jane") true 1
            ["API extraction found 1 products"]) = Some "jane".
Proof.
  split; [reflexivity|].
  apply (fetch_competitor_menu_engine_final nat (fun n => Nat.eqb n 0) (fun n => n) 0
    demo_html (fun u _ => if String.eqb u "https://shop.example/menu" then "generic" else "jane")
    (fun _ _ => Some 0) (fun _ _ => Some 0) (fun _ _ => Some 0) (fun _ _ => Some 0)
    (fun _ _ => Some 0) (fun _ _ => Some 0) true (fun _ _ => None)
    (fun _ => Some ("<html></html>", [demo_payload], "https://shop.example/r"))
    (fun pls => Some (List.length (parse_dutchie_responses pls))) (fun _ => Some 4)
    "https://shop.example/menu" true None 1).
  reflexivity.
Defined.

Lemma fetch_competitor_menu_dutchie_no_browser_witness :
  demo_router true (fun _ _ => "dutchie") (fun _ _ => Some (0, 0, [])) (fun _ => None)
    (fun _ => Some 4) "https://shop.example/menu" true None =
  demo_router true (fun _ _ => "dutchie") (fun _ _ => Some (0, 0, []))
    (fun _ => Some ("<html></html>", [demo_payload], "https://shop.example/r"))
    (fun _ => Some 4) "https://shop.example/menu" true None.
Proof.
  apply (fetch_competitor_menu_dutchie_no_browser nat (fun n => Nat.eqb n 0) (fun n => n) 0
    demo_html (fun _ _ => "dutchie")
    (fun _ _ => Some 0) (fun _ _ => Some 0) (fun _ _ => Some 0) (fun _ _ => Some 0)
    (fun _ _ => Some 0) (fun _ _ => Some 0) true (fun _ _ => Some (0, 0, []))
    (fun pls => Some (List.length (parse_dutchie_responses pls))) (fun _ => Some 4)
    (fun _ => None) (fun _ => Some ("<html></html>", [demo_payload], "https://shop.example/r"))
    "https://shop.example/menu" true None "<div id=app></div>"); reflexivity.
Defined.

Lemma fetch_competitor_menu_no_ocr_unless_js_heavy_witness :
  demo_router true (fun u _ => if String.eqb u "https://shop.example/menu" then "generic" else "jane")
    (fun _ _ => None) (fun _ => Some ("<html></html>", [], "https://shop.example/r"))
    (fun _ => Some 4) "https://shop.example/menu" true None =
  demo_router true (fun u _ => if String.eqb u "https://shop.example/menu" then "generic" else "jane")
    (fun _ _ => None) (fun _ => Some ("<html></html>", [], "https://shop.example/r"))
    (fun _ => None) "https://shop.example/menu" true None.
Proof.
  apply (fetch_competitor_menu_no_ocr_unless_js_heavy nat (fun n => Nat.eqb n 0) (fun n => n) 0
    demo_html (fun u _ => if String.eqb u "https://shop.example/menu" then "generic" else "jane")
    (fun _ _ => Some 0) (fun _ _ => Some 0) (fun _ _ => Some 0) (fun _ _ => Some 0)
    (fun _ _ => Some 0) (fun _ _ => Some 0) true (fun _ _ => None)
    (fun _ => Some ("<html></html>", [], "https://shop.example/r"))
    (fun pls => Some (List.length (parse_dutchie_responses pls))) (fun _ => Some 4) (fun _ => None)
    "https://shop.example/menu" true None "<div id=app></div>"); reflexivity.
Defined.

(** The rendered page is detected as Jane, yet the OCR fallback is not
    tried: the flag comes from the engine detected first. *)
Example demo_no_ocr_after_redetection :
  demo_router true (fun u _ => if String.eqb u "https://shop.example/menu" then "generic" else "jane")
    (fun _ _ => None) (fun _ => Some ("<html></html>", [], "https://shop.example/r"))
    (fun _ => Some 4) "https://shop.example/menu" true None
  = Some (0, Some "jane",
          mkDebug "https://shop.example/r" (Some "generic") (Some "jane") true 0
            ["HTML/JSON-LD extraction found 0 products"]).
Proof. reflexivity. Qed.
